(** * Keyguard message codec: a shallow embedding of keyguard_messages.cpp

    The embedding follows [src/keyguard_messages.cpp] and
    [src/include/keyguard/keyguard_messages.h] function by function.

    Data model.  [SizedBuffer::length] is a [size_t], and the codec copies
    [sizeof(length)] bytes for the length prefix of a buffer while
    [serialized_buffer_size] counts [sizeof(uint32_t)] for it.  The width
    of [size_t] is not fixed by the sources, so it is a parameter
    ([DataModel]): 4 bytes with 32-bit pointers (ILP32) or 8 bytes with
    64-bit pointers (LP64).  [uint32_t] is 4 bytes in both.  Integers are
    stored with [memcpy], i.e. in the byte order of the machine, taken to
    be little endian.  Pointers are addresses in [Z] whose arithmetic
    wraps modulo the size of the address space; the input is a flat memory
    (a function from addresses to bytes) together with the two pointers
    [payload] and [end].

    Effects.  Every byte the code reads from the input memory is recorded,
    in order, in a log, and so is the content of every heap block at the
    moment its [unique_ptr] releases it.  A [std::unique_ptr<uint8_t>] is
    an [option (list byte)]: [None] is the null pointer, [Some blk] owns a
    block whose current content is [blk] ([Some []] is the non-null result
    of [new uint8_t[0]]). *)

From Stdlib Require Import ZArith List Lia Bool.
From coqutil Require Import Byte Word.LittleEndianList.
Import ListNotations.
Local Open Scope Z_scope.

(** ** Machine integers and pointers *)

Inductive DataModel : Set := ILP32 | LP64.
Existing Class DataModel.

Definition uint32 : Type := Z.
Definition size_t : Type := Z.
Definition ptr : Type := Z.

(** [sizeof(uint32_t)]. *)
Definition sizeof_uint32 : Z := 4.

(** [sizeof(size_t)], which is also the size of a pointer. *)
Definition sizeof_size_t {dm : DataModel} : Z :=
  match dm with ILP32 => 4 | LP64 => 8 end.

(** The number of values of a [size_t], and of addresses. *)
Definition size_modulus {dm : DataModel} : Z := 2 ^ (8 * sizeof_size_t).

Arguments sizeof_size_t : simpl never.
Arguments size_modulus : simpl never.

(** Arithmetic on [size_t] and on pointers wraps. *)
Definition wrap_size {dm : DataModel} (z : Z) : Z := z mod size_modulus.

(** [p + n] on a [uint8_t*]. *)
Definition ptr_add {dm : DataModel} (p : ptr) (n : Z) : ptr := wrap_size (p + n).

(** [memcpy(dst, &v, sizeof(uint32_t))]: the four bytes of a 32-bit value. *)
Definition le32 (v : Z) : list byte := le_split 4 v.

(** [memcpy(dst, &v, sizeof(size_t))]: the bytes of a [size_t]. *)
Definition le_size {dm : DataModel} (v : Z) : list byte :=
  le_split (Z.to_nat sizeof_size_t) v.

(** ** keyguard_error_t

    The enumeration has two enumerators, but [Deserialize] fills the
    member with [static_cast<keyguard_error_t>(error_value)] for whatever
    32-bit [error_value] the wire holds, and [Serialize] writes it back
    with [static_cast<uint32_t>(error_)]: the member carries a 32-bit
    value. *)

Definition keyguard_error_t : Type := Z.
Definition KG_ERROR_OK : keyguard_error_t := 0.
Definition KG_ERROR_INVALID : keyguard_error_t := 1.

(** ** SizedBuffer *)

Record SizedBuffer : Type := mkSizedBuffer {
  buffer : option (list byte);
  length : size_t
}.

(** What [memset_s(&field, 0, sizeof(field))] leaves in a [SizedBuffer]. *)
Definition zeroed_SizedBuffer : SizedBuffer := mkSizedBuffer None 0.

(** ** Input memory and the effect log *)

Definition Memory : Type := ptr -> byte.

Record Log : Type := mkLog {
  reads : list ptr;
  released : list (list byte)
}.

Definition empty_log : Log := mkLog [] [].

Definition M (A : Type) : Type := Log -> A * Log.

Definition ret {A : Type} (a : A) : M A := fun l => (a, l).

Definition bind {A B : Type} (c : M A) (k : A -> M B) : M B :=
  fun l => let (a, l') := c l in k a l'.

Notation "x <- c ;; k" := (bind c (fun x => k))
  (at level 61, c at next level, right associativity).
Notation "' pat <- c ;; k" := (bind c (fun x => match x with pat => k end))
  (at level 61, pat pattern, c at next level, right associativity).

(** The addresses [p, p+1, ..., p+n-1]. *)
Definition addrs {dm : DataModel} (p : ptr) (n : Z) : list ptr :=
  map (fun i => ptr_add p (Z.of_nat i)) (seq 0 (Z.to_nat n)).

(** [memcpy(dst, src, n)] with [src] in the input memory: the bytes
    copied, every source address logged. *)
Definition memcpy_from {dm : DataModel} (mem : Memory) (src : ptr) (n : size_t)
  : M (list byte) :=
  fun l => (map mem (addrs src n), mkLog (reads l ++ addrs src n) (released l)).

(** Reading a [uint32_t] at [p]. *)
Definition load32 {dm : DataModel} (mem : Memory) (p : ptr) : M Z :=
  bs <- memcpy_from mem p sizeof_uint32 ;; ret (le_combine bs).

(** Reading a [size_t] at [p]. *)
Definition load_size {dm : DataModel} (mem : Memory) (p : ptr) : M Z :=
  bs <- memcpy_from mem p sizeof_size_t ;; ret (le_combine bs).

(** The 32-bit value stored at [p], without the log. *)
Definition peek32 {dm : DataModel} (mem : Memory) (p : ptr) : Z :=
  le_combine (map mem (addrs p sizeof_uint32)).

(** The [size_t] stored at [p], without the log. *)
Definition peek_size {dm : DataModel} (mem : Memory) (p : ptr) : Z :=
  le_combine (map mem (addrs p sizeof_size_t)).

(** [unique_ptr::reset()]: the owned block, if any, is released with the
    content it has at that moment. *)
Definition reset (p : option (list byte)) : M (option (list byte)) :=
  match p with
  | Some blk => fun l => (None, mkLog (reads l) (released l ++ [blk]))
  | None => ret None
  end.

(** [memset_s(s, c, n)] on a heap block: its first [n] bytes become [c].
    (A count beyond the block would write outside it; only the block is
    modelled.) *)
Definition memset_s (blk : list byte) (c : byte) (n : size_t) : list byte :=
  repeat c (Nat.min (Z.to_nat n) (List.length blk)) ++ skipn (Z.to_nat n) blk.

(** ** Methods for serializing/deserializing SizedBuffers *)

Definition serialized_buffer_size {dm : DataModel} (buf : SizedBuffer) : size_t :=
  wrap_size (sizeof_uint32 + length buf).

(** The bytes of the block a non-null [buffer.get()] points to. *)
Definition block_of (p : option (list byte)) : list byte :=
  match p with Some blk => blk | None => [] end.

(** The [n] bytes [memcpy(dst, block, n)] copies out of a heap block:
    [memcpy] copies [n] bytes whatever the size of the block.  When [n]
    exceeds the block the copy runs past it; the heap beyond a block is
    not modelled and shows as zero bytes.  The statements below that
    speak of the bytes copied are about blocks of at least [n] bytes;
    for the others only the count matters. *)
Definition copy_of_block (blk : list byte) (n : size_t) : list byte :=
  firstn (Z.to_nat n) blk ++ repeat Byte.x00 (Z.to_nat n - List.length blk).

(** [append_to_buffer(&cursor, to_append)]: [out] is what has been written
    before the cursor; the result is [out] followed by the
    [sizeof(to_append->length)] bytes of the length and by [length] bytes
    copied from the block. *)
Definition append_to_buffer {dm : DataModel} (out : list byte) (to_append : SizedBuffer)
  : list byte :=
  out ++ le_size (length to_append)
      ++ copy_of_block (block_of (buffer to_append)) (length to_append).

(** [read_from_buffer(&cursor, end, target)]: the error, the cursor and
    the target as the call leaves them. *)
Definition read_from_buffer {dm : DataModel} (mem : Memory) (cursor end_ : ptr)
  (target : SizedBuffer) : M (keyguard_error_t * ptr * SizedBuffer) :=
  if ptr_add cursor sizeof_size_t >=? end_ then ret (KG_ERROR_INVALID, cursor, target)
  else
    len <- load_size mem cursor ;;
    let target1 := mkSizedBuffer (buffer target) len in
    let cursor1 := ptr_add cursor sizeof_size_t in
    let buffer_end := ptr_add cursor1 len in
    if (buffer_end >? end_) || (buffer_end <=? cursor1)
    then ret (KG_ERROR_INVALID, cursor1, target1)
    else
      _ <- reset (buffer target1) ;;
      data <- memcpy_from mem cursor1 len ;;
      ret (KG_ERROR_OK, ptr_add cursor1 len, mkSizedBuffer (Some data) len).

(** ** KeyguardMessage

    The base class holds [error_] and [user_id_]; a subclass adds its
    buffer fields and overrides the three protected hooks.  [fields] is
    the subclass part of the object. *)

Record KeyguardMessage (F : Type) : Type := mkMessage {
  error_ : keyguard_error_t;
  user_id_ : uint32;
  fields : F
}.
Arguments mkMessage {F} _ _ _.
Arguments error_ {F} _.
Arguments user_id_ {F} _.
Arguments fields {F} _.

Class MessageVariant (F : Type) : Type := {
  nonErrorSerializedSize : F -> size_t;
  nonErrorSerialize : F -> list byte;
  nonErrorDeserialize : Memory -> ptr -> ptr -> F -> M (keyguard_error_t * F);
  (** the subclass's default constructor and destructor *)
  default_fields : F;
  destroy : F -> M unit
}.

Section Envelope.
Context {dm : DataModel} {F : Type} `{MessageVariant F}.

Definition GetError (m : KeyguardMessage F) : keyguard_error_t := error_ m.
Definition GetUserId (m : KeyguardMessage F) : uint32 := user_id_ m.
Definition SetError (error : keyguard_error_t) (m : KeyguardMessage F) :=
  mkMessage error (user_id_ m) (fields m).

Definition GetSerializedSize (m : KeyguardMessage F) : size_t :=
  if error_ m =? KG_ERROR_OK
  then wrap_size (2 * sizeof_uint32 + nonErrorSerializedSize (fields m))
  else sizeof_uint32.

(** The bytes [Serialize] writes, in order, from the start of the buffer
    it allocates.  For an OK message that buffer has
    [2*sizeof(uint32_t) + nonErrorSerializedSize()] bytes, which is
    [GetSerializedSize]; the hook writes through a bare pointer, so
    nothing bounds the bytes written by that size. *)
Definition Serialize (m : KeyguardMessage F) : list byte :=
  if negb (error_ m =? KG_ERROR_OK)
  then le32 (error_ m)
  else le32 (error_ m) ++ le32 (user_id_ m) ++ nonErrorSerialize (fields m).

Definition Deserialize (mem : Memory) (payload end_ : ptr) (m : KeyguardMessage F)
  : M (keyguard_error_t * KeyguardMessage F) :=
  if ptr_add payload sizeof_uint32 >? end_ then ret (KG_ERROR_INVALID, m)
  else
    error_value <- load32 mem payload ;;
    let m1 := mkMessage error_value (user_id_ m) (fields m) in
    let payload1 := ptr_add payload sizeof_uint32 in
    if error_ m1 =? KG_ERROR_OK then
      if payload1 =? end_ then ret (KG_ERROR_INVALID, m1)
      else
        uid <- load32 mem payload1 ;;
        '(e, f) <- nonErrorDeserialize mem (ptr_add payload1 sizeof_uint32) end_ (fields m1) ;;
        ret (e, mkMessage e uid f)
    else ret (error_ m1, m1).

(** A default-constructed message: [error_] is [KG_ERROR_OK], the
    fields are zeroed, and [user_id_] is not initialised ([uid] stands
    for whatever it holds). *)
Definition default_message (uid : uint32) : KeyguardMessage F :=
  mkMessage KG_ERROR_OK uid default_fields.
End Envelope.
(** ** Releasing and moving buffer fields *)

(** [if (b.buffer) b.buffer.reset();] *)
Definition release_field (b : SizedBuffer) : M SizedBuffer :=
  p <- reset (buffer b) ;; ret (mkSizedBuffer p (length b)).

(** [if (b.buffer) { memset_s(b.buffer.get(), 0, b.length); b.buffer.reset(); }] *)
Definition wipe_and_release_field (b : SizedBuffer) : M SizedBuffer :=
  match buffer b with
  | Some blk =>
      p <- reset (Some (memset_s blk Byte.x00 (length b))) ;;
      ret (mkSizedBuffer p (length b))
  | None => ret b
  end.

(** [field.buffer = std::move(src->buffer); field.length = src->length;]
    into a field that owns nothing: the field, and the source as the two
    statements leave it. *)
Definition move_from (src : SizedBuffer) : SizedBuffer * SizedBuffer :=
  (mkSizedBuffer (buffer src) (length src), mkSizedBuffer None (length src)).

(** The same two statements into a field that may own a block, which the
    move assignment releases. *)
Definition move_assign (field src : SizedBuffer) : M (SizedBuffer * SizedBuffer) :=
  _ <- reset (buffer field) ;; ret (move_from src).

(** ** VerifyRequest *)

Module VerifyRequest.

Record t : Type := mk {
  password_handle_ : SizedBuffer;
  provided_password_ : SizedBuffer
}.

(** [VerifyRequest(user_id, enrolled_password_handle, provided_password_payload)]:
    the object and the two sources (distinct objects) after the call. *)
Definition ctor (user_id : uint32)
  (enrolled_password_handle provided_password_payload : SizedBuffer)
  : KeyguardMessage t * SizedBuffer * SizedBuffer :=
  let (h, src_h) := move_from enrolled_password_handle in
  let (p, src_p) := move_from provided_password_payload in
  (mkMessage KG_ERROR_OK user_id (mk h p), src_h, src_p).

Definition default : t := mk zeroed_SizedBuffer zeroed_SizedBuffer.

Definition GetPasswordHandle (m : KeyguardMessage t) := password_handle_ (fields m).
Definition GetProvidedPassword (m : KeyguardMessage t) := provided_password_ (fields m).

Definition dtor (f : t) : M unit :=
  h <- release_field (password_handle_ f) ;;
  p <- wipe_and_release_field (provided_password_ f) ;;
  (* the members' own destructors *)
  _ <- reset (buffer p) ;;
  _ <- reset (buffer h) ;;
  ret tt.

Definition nonErrorSerializedSize {dm : DataModel} (f : t) : size_t :=
  wrap_size (serialized_buffer_size (password_handle_ f)
          + serialized_buffer_size (provided_password_ f)).

Definition nonErrorSerialize {dm : DataModel} (f : t) : list byte :=
  append_to_buffer (append_to_buffer [] (password_handle_ f)) (provided_password_ f).

Definition nonErrorDeserialize {dm : DataModel} (mem : Memory) (payload end_ : ptr) (f : t)
  : M (keyguard_error_t * t) :=
  h <- release_field (password_handle_ f) ;;
  p <- wipe_and_release_field (provided_password_ f) ;;
  '(error, payload1, h1) <- read_from_buffer mem payload end_ h ;;
  if negb (error =? KG_ERROR_OK) then ret (error, mk h1 p)
  else
    '(error2, _, p1) <- read_from_buffer mem payload1 end_ p ;;
    ret (error2, mk h1 p1).

End VerifyRequest.

#[export] Instance VerifyRequest_variant {dm : DataModel} : MessageVariant VerifyRequest.t := {
  nonErrorSerializedSize := VerifyRequest.nonErrorSerializedSize;
  nonErrorSerialize := VerifyRequest.nonErrorSerialize;
  nonErrorDeserialize := VerifyRequest.nonErrorDeserialize;
  default_fields := VerifyRequest.default;
  destroy := VerifyRequest.dtor
}.

(** ** VerifyResponse *)

Module VerifyResponse.

Record t : Type := mk { verification_token_ : SizedBuffer }.

Definition ctor (user_id : uint32) (verification_token : SizedBuffer)
  : KeyguardMessage t * SizedBuffer :=
  let (v, src) := move_from verification_token in
  (mkMessage KG_ERROR_OK user_id (mk v), src).

Definition default : t := mk zeroed_SizedBuffer.

Definition GetVerificationToken (m : KeyguardMessage t) := verification_token_ (fields m).

Definition dtor (f : t) : M unit :=
  p <- (if length (verification_token_ f) >? 0
        then reset (buffer (verification_token_ f))
        else ret (buffer (verification_token_ f))) ;;
  (* the member's own destructor *)
  _ <- reset p ;;
  ret tt.

Definition SetVerificationToken (verification_token : SizedBuffer) (m : KeyguardMessage t)
  : M (KeyguardMessage t * SizedBuffer) :=
  '(v, src) <- move_assign (verification_token_ (fields m)) verification_token ;;
  ret (mkMessage (error_ m) (user_id_ m) (mk v), src).

Definition nonErrorSerializedSize {dm : DataModel} (f : t) : size_t :=
  serialized_buffer_size (verification_token_ f).

Definition nonErrorSerialize {dm : DataModel} (f : t) : list byte :=
  append_to_buffer [] (verification_token_ f).

Definition nonErrorDeserialize {dm : DataModel} (mem : Memory) (payload end_ : ptr) (f : t)
  : M (keyguard_error_t * t) :=
  v <- release_field (verification_token_ f) ;;
  '(error, _, v1) <- read_from_buffer mem payload end_ v ;;
  ret (error, mk v1).

End VerifyResponse.

#[export] Instance VerifyResponse_variant {dm : DataModel} : MessageVariant VerifyResponse.t := {
  nonErrorSerializedSize := VerifyResponse.nonErrorSerializedSize;
  nonErrorSerialize := VerifyResponse.nonErrorSerialize;
  nonErrorDeserialize := VerifyResponse.nonErrorDeserialize;
  default_fields := VerifyResponse.default;
  destroy := VerifyResponse.dtor
}.

(** ** EnrollRequest *)

Module EnrollRequest.

Record t : Type := mk { provided_password_ : SizedBuffer }.

Definition ctor (user_id : uint32) (provided_password : SizedBuffer)
  : KeyguardMessage t * SizedBuffer :=
  let (p, src) := move_from provided_password in
  (mkMessage KG_ERROR_OK user_id (mk p), src).

Definition default : t := mk zeroed_SizedBuffer.

Definition GetProvidedPassword (m : KeyguardMessage t) := provided_password_ (fields m).

Definition dtor (f : t) : M unit :=
  p <- wipe_and_release_field (provided_password_ f) ;;
  (* the member's own destructor *)
  _ <- reset (buffer p) ;;
  ret tt.

Definition nonErrorSerializedSize {dm : DataModel} (f : t) : size_t :=
  serialized_buffer_size (provided_password_ f).

Definition nonErrorSerialize {dm : DataModel} (f : t) : list byte :=
  append_to_buffer [] (provided_password_ f).

Definition nonErrorDeserialize {dm : DataModel} (mem : Memory) (payload end_ : ptr) (f : t)
  : M (keyguard_error_t * t) :=
  p <- wipe_and_release_field (provided_password_ f) ;;
  '(error, _, p1) <- read_from_buffer mem payload end_ p ;;
  ret (error, mk p1).

End EnrollRequest.

#[export] Instance EnrollRequest_variant {dm : DataModel} : MessageVariant EnrollRequest.t := {
  nonErrorSerializedSize := EnrollRequest.nonErrorSerializedSize;
  nonErrorSerialize := EnrollRequest.nonErrorSerialize;
  nonErrorDeserialize := EnrollRequest.nonErrorDeserialize;
  default_fields := EnrollRequest.default;
  destroy := EnrollRequest.dtor
}.

(** ** EnrollResponse *)

Module EnrollResponse.

Record t : Type := mk { enrolled_password_handle_ : SizedBuffer }.

Definition ctor (user_id : uint32) (enrolled_password_handle : SizedBuffer)
  : KeyguardMessage t * SizedBuffer :=
  let (h, src) := move_from enrolled_password_handle in
  (mkMessage KG_ERROR_OK user_id (mk h), src).

Definition default : t := mk zeroed_SizedBuffer.

Definition GetEnrolledPasswordHandle (m : KeyguardMessage t) :=
  enrolled_password_handle_ (fields m).

Definition dtor (f : t) : M unit :=
  h <- release_field (enrolled_password_handle_ f) ;;
  (* the member's own destructor *)
  _ <- reset (buffer h) ;;
  ret tt.

Definition SetEnrolledPasswordHandle (enrolled_password_handle : SizedBuffer)
  (m : KeyguardMessage t) : M (KeyguardMessage t * SizedBuffer) :=
  '(h, src) <- move_assign (enrolled_password_handle_ (fields m)) enrolled_password_handle ;;
  ret (mkMessage (error_ m) (user_id_ m) (mk h), src).

Definition nonErrorSerializedSize {dm : DataModel} (f : t) : size_t :=
  serialized_buffer_size (enrolled_password_handle_ f).

Definition nonErrorSerialize {dm : DataModel} (f : t) : list byte :=
  append_to_buffer [] (enrolled_password_handle_ f).

Definition nonErrorDeserialize {dm : DataModel} (mem : Memory) (payload end_ : ptr) (f : t)
  : M (keyguard_error_t * t) :=
  h <- release_field (enrolled_password_handle_ f) ;;
  '(error, _, h1) <- read_from_buffer mem payload end_ h ;;
  ret (error, mk h1).

End EnrollResponse.

#[export] Instance EnrollResponse_variant {dm : DataModel} : MessageVariant EnrollResponse.t := {
  nonErrorSerializedSize := EnrollResponse.nonErrorSerializedSize;
  nonErrorSerialize := EnrollResponse.nonErrorSerialize;
  nonErrorDeserialize := EnrollResponse.nonErrorDeserialize;
  default_fields := EnrollResponse.default;
  destroy := EnrollResponse.dtor
}.

(** ** Input memories for examples *)

(** A memory holding [bytes] from address [base] on, zero elsewhere. *)
Definition place (base : ptr) (bytes : list byte) : Memory :=
  fun a => nth (Z.to_nat (a - base)) bytes Byte.x00.

(** [mem] holds [bytes] from address [base] on. *)
Definition holds (mem : Memory) (base : ptr) (bytes : list byte) : Prop :=
  forall i : nat, (i < List.length bytes)%nat ->
    mem (base + Z.of_nat i) = nth i bytes Byte.x00.

(** The input range [[payload, end_)]. *)
Definition in_range (payload end_ : ptr) (a : ptr) : Prop := payload <= a < end_.

(** The block a [unique_ptr] owns, as a list of at most one block. *)
Definition owned_blocks (p : option (list byte)) : list (list byte) :=
  match p with Some blk => [blk] | None => [] end.

(** The first [n] bytes of [blk] are zero. *)
Definition zero_prefix (n : size_t) (blk : list byte) : Prop :=
  forall i : nat, (i < List.length blk)%nat -> Z.of_nat i < n ->
    nth_error blk i = Some Byte.x00.

(** The result of running a computation from a given log. *)
Definition result {A : Type} (r : A * Log) : A := fst r.
Definition log_of {A : Type} (r : A * Log) : Log := snd r.

(** The two enumerators of [keyguard_error_t]. *)
Definition two_valued (e : keyguard_error_t) : Prop :=
  e = KG_ERROR_OK \/ e = KG_ERROR_INVALID.

(** What [Deserialize] of a variant can return and store: the returned
    value is an enumerator, or the code other than OK held in the first
    four bytes of the input, which is then stored as well; the stored
    error is the returned value, or OK, or the error the object held
    before the call. *)
Definition Deserialize_error_values {dm : DataModel} (F : Type) `{MessageVariant F}
  : Prop :=
  forall (mem : Memory) (payload end_ : ptr) (m : KeyguardMessage F) (l : Log),
    let r := result (Deserialize mem payload end_ m l) in
    (two_valued (fst r) \/
     (peek32 mem payload <> KG_ERROR_OK /\
      fst r = peek32 mem payload /\ error_ (snd r) = peek32 mem payload)) /\
    (error_ (snd r) = fst r \/ error_ (snd r) = KG_ERROR_OK \/
     error_ (snd r) = error_ m).

(** The round trip as the callers perform it: [m] is serialized, the
    bytes are placed at [base], and a default-constructed object of the
    same variant deserializes the [GetSerializedSize m] bytes from there. *)
Definition round_trip {dm : DataModel} {F : Type} `{MessageVariant F}
  (base : ptr) (uid0 : uint32)
  (m : KeyguardMessage F) : keyguard_error_t * KeyguardMessage F :=
  result (Deserialize (place base (Serialize m)) base (ptr_add base (GetSerializedSize m))
            (default_message uid0) empty_log).

(** Every address a run added to the log lies in [[lo, hi)]. *)
Definition reads_within (lo hi : ptr) (before after : Log) : Prop :=
  exists new : list ptr,
    reads after = reads before ++ new /\ Forall (in_range lo hi) new.

(** [Deserialize] of a variant stays inside the input range, unless the
    range holds an OK code followed by one to three bytes. *)
Definition Deserialize_reads_in_range {dm : DataModel} (F : Type) `{MessageVariant F}
  : Prop :=
  forall (mem : Memory) (payload end_ : ptr) (m : KeyguardMessage F) (l : Log),
    0 <= payload <= end_ -> end_ + sizeof_size_t < size_modulus ->
    ~ (peek32 mem payload = KG_ERROR_OK /\ 4 < end_ - payload < 8) ->
    reads_within payload end_ l (log_of (Deserialize mem payload end_ m l)).

(** The bytes the input memory holds at [[p, p + n)]. *)
Definition bytes_at {dm : DataModel} (mem : Memory) (p : ptr) (n : Z) : list byte :=
  map mem (addrs p n).

(** A buffer whose pointer, when it is not null, points to a block of
    exactly [length] bytes. *)
Definition buffer_ok (b : SizedBuffer) : Prop :=
  match buffer b with
  | Some blk => length b = Z.of_nat (List.length blk)
  | None => True
  end.

(** The block of [b], if any, after [memset_s(b.buffer.get(), 0, b.length)]. *)
Definition wiped_block (b : SizedBuffer) : option (list byte) :=
  option_map (fun blk => memset_s blk Byte.x00 (length b)) (buffer b).

(** [m] survives the wire at [base], followed by [rest]: on every memory
    that holds the bytes [Serialize m] wrote and then [rest], a
    default-constructed object decodes the whole range to OK and to [m]
    itself, reading inside the serialized message only. *)
Definition decodes_back {dm : DataModel} {F : Type} `{MessageVariant F}
  (base : ptr) (rest : list byte) (m : KeyguardMessage F) : Prop :=
  forall (mem : Memory) (uid0 : uint32) (l : Log),
    holds mem base (Serialize m ++ rest) ->
    let r := Deserialize mem base (base + Z.of_nat (List.length (Serialize m ++ rest)))
               (default_message uid0) l in
    result r = (KG_ERROR_OK, m) /\
    reads_within base (base + Z.of_nat (List.length (Serialize m))) l (log_of r).

(** No proper prefix of the serialized [m] decodes: on every memory that
    holds the first [k] bytes of what [Serialize m] wrote, with [k] less
    than their number, decoding the [k]-byte range into any object
    returns INVALID.  Prefixes of 5 to 7 bytes are left out: on those the
    decoder reads the user id past the end of the range. *)
Definition rejects_truncations {dm : DataModel} {F : Type} `{MessageVariant F}
  (base : ptr) (m : KeyguardMessage F) : Prop :=
  forall (mem : Memory) (k : nat) (m0 : KeyguardMessage F) (l : Log),
    (k < List.length (Serialize m))%nat -> (k <= 4 \/ 8 <= k)%nat ->
    holds mem base (firstn k (Serialize m)) ->
    fst (result (Deserialize mem base (base + Z.of_nat k) m0 l)) = KG_ERROR_INVALID.

(** What [Deserialize] of a variant returns depends on the input only:
    decoding the same range into two objects, from two logs, returns the
    same error, and when that is OK leaves the two objects equal. *)
Definition depends_on_input_only {dm : DataModel} (F : Type) `{MessageVariant F}
  : Prop :=
  forall (mem : Memory) (payload end_ : ptr) (m m' : KeyguardMessage F) (l l' : Log),
    let r := result (Deserialize mem payload end_ m l) in
    let r' := result (Deserialize mem payload end_ m' l') in
    fst r = fst r' /\ (fst r = KG_ERROR_OK -> snd r = snd r').

(** Each single-field hook is one call of [read_from_buffer] whose result
    becomes the field. *)
Definition single_field_hook {dm : DataModel} {F : Type} `{MessageVariant F}
  (mk : SizedBuffer -> F) : Prop :=
  forall mem p e f l, exists t l0,
    buffer t = None /\ reads l0 = reads l /\
    nonErrorDeserialize mem p e f l =
    let (r, l') := read_from_buffer mem p e t l0 in ((fst (fst r), mk (snd r)), l').


(** * Basic facts *)

Section Basics.
Context {dm : DataModel}.

Lemma sizeof_size_t_range : 4 <= sizeof_size_t <= 8.
Proof. destruct dm; cbv; split; discriminate. Qed.

Lemma size_modulus_ge : 2 ^ 32 <= size_modulus.
Proof. destruct dm; cbv; discriminate. Qed.

Lemma sizeof_size_t_nat : Z.of_nat (Z.to_nat sizeof_size_t) = sizeof_size_t.
Proof. pose proof sizeof_size_t_range. lia. Qed.

Lemma wrap_size_small (z : Z) : 0 <= z < size_modulus -> wrap_size z = z.
Proof. intros Hz. unfold wrap_size. now apply Z.mod_small. Qed.

Lemma ptr_add_small (p n : Z) : 0 <= p + n < size_modulus -> ptr_add p n = p + n.
Proof. intros Hz. unfold ptr_add. now apply wrap_size_small. Qed.

Lemma ptr_add_cases (p n : Z) :
  0 <= p < size_modulus -> 0 <= n < size_modulus ->
  (p + n < size_modulus /\ ptr_add p n = p + n) \/
  (size_modulus <= p + n /\ ptr_add p n = p + n - size_modulus).
Proof.
  intros Hp Hn. unfold ptr_add, wrap_size.
  destruct (Z_lt_le_dec (p + n) size_modulus) as [Hlt|Hge].
  - left. split; [exact Hlt|]. apply Z.mod_small. lia.
  - right. split; [exact Hge|].
    rewrite <- (Z.mod_small (p + n - size_modulus) size_modulus) by lia.
    replace (p + n) with ((p + n - size_modulus) + 1 * size_modulus) at 1 by lia.
    apply Z.mod_add. lia.
Qed.

Lemma addrs_length (p n : Z) : List.length (addrs p n) = Z.to_nat n.
Proof. unfold addrs. now rewrite length_map, length_seq. Qed.

Lemma addrs_4 (p : ptr) :
  addrs p 4 = [ptr_add p 0; ptr_add p 1; ptr_add p 2; ptr_add p 3].
Proof. reflexivity. Qed.

Lemma addrs_in_range (p n a : Z) :
  0 <= p -> p + n <= size_modulus -> In a (addrs p n) -> p <= a < p + n.
Proof.
  intros Hp Hn Ha. unfold addrs in Ha.
  apply in_map_iff in Ha. destruct Ha as [i [Hi Hin]].
  apply in_seq in Hin. rewrite ptr_add_small in Hi; lia.
Qed.

Lemma map_seq_from {A : Type} (f : nat -> A) (len start : nat) :
  map f (seq start len) = map (fun i => f (start + i)%nat) (seq 0 len).
Proof.
  revert start. induction len as [|len IH]; intros start; [reflexivity|].
  cbn [seq map]. f_equal; [f_equal; lia|].
  rewrite IH, <- seq_shift, map_map. apply map_ext. intros i. f_equal. lia.
Qed.

Lemma addrs_app (p a b : Z) :
  0 <= a -> 0 <= b -> addrs p (a + b) = addrs p a ++ addrs (p + a) b.
Proof.
  intros Ha Hb. unfold addrs. rewrite Z2Nat.inj_add by assumption.
  rewrite seq_app, map_app. f_equal. cbn [Nat.add].
  rewrite map_seq_from. apply map_ext. intros i. unfold ptr_add. f_equal. lia.
Qed.


Lemma bytes_at_length (mem : Memory) (p n : Z) :
  0 <= n -> Z.of_nat (List.length (bytes_at mem p n)) = n.
Proof.
  intros Hn. unfold bytes_at. rewrite length_map, addrs_length. lia.
Qed.

Lemma le32_length (v : Z) : List.length (le32 v) = 4%nat.
Proof. apply length_le_split. Qed.

Lemma le32_combine (v : Z) : 0 <= v < 2 ^ 32 -> le_combine (le32 v) = v.
Proof.
  intros Hv. unfold le32. rewrite le_combine_split.
  change (Z.of_nat 4 * 8) with 32. now apply Z.mod_small.
Qed.

Lemma le_size_length (v : Z) : Z.of_nat (List.length (le_size v)) = sizeof_size_t.
Proof. unfold le_size. rewrite length_le_split. apply sizeof_size_t_nat. Qed.

Lemma le_size_combine (v : Z) : 0 <= v < size_modulus -> le_combine (le_size v) = v.
Proof.
  intros Hv. unfold le_size. rewrite le_combine_split.
  replace (2 ^ (Z.of_nat (Z.to_nat sizeof_size_t) * 8)) with size_modulus
    by (destruct dm; reflexivity).
  now apply Z.mod_small.
Qed.

Lemma holds_app_l (mem : Memory) (p : ptr) (a b : list byte) :
  holds mem p (a ++ b) -> holds mem p a.
Proof.
  intros Hh i Hi. rewrite Hh by (rewrite length_app; lia).
  now rewrite app_nth1.
Qed.

Lemma holds_app_r (mem : Memory) (p : ptr) (a b : list byte) :
  holds mem p (a ++ b) -> holds mem (p + Z.of_nat (List.length a)) b.
Proof.
  intros Hh i Hi.
  replace (p + Z.of_nat (List.length a) + Z.of_nat i)
    with (p + Z.of_nat (List.length a + i)) by lia.
  rewrite Hh by (rewrite length_app; lia).
  rewrite app_nth2 by lia. f_equal. lia.
Qed.

Lemma holds_read (mem : Memory) (p : ptr) (bs : list byte) :
  0 <= p -> p + Z.of_nat (List.length bs) <= size_modulus -> holds mem p bs ->
  map mem (addrs p (Z.of_nat (List.length bs))) = bs.
Proof.
  intros Hp Hn Hh.
  apply nth_ext with (d := mem 0) (d' := Byte.x00).
  - now rewrite length_map, addrs_length, Nat2Z.id.
  - intros i Hi. rewrite length_map, addrs_length, Nat2Z.id in Hi.
    rewrite map_nth. unfold addrs. rewrite Nat2Z.id.
    rewrite nth_indep with (d' := ptr_add p (Z.of_nat 0))
      by now rewrite length_map, length_seq.
    rewrite map_nth with (f := fun i => ptr_add p (Z.of_nat i)).
    rewrite seq_nth by exact Hi. cbn [Nat.add].
    rewrite ptr_add_small by lia. now apply Hh.
Qed.

Lemma place_holds (base : ptr) (bytes : list byte) : holds (place base bytes) base bytes.
Proof.
  intros i _. unfold place. f_equal. lia.
Qed.

Lemma peek32_le32 (mem : Memory) (p : ptr) (v : Z) :
  0 <= p -> p + 4 <= size_modulus -> 0 <= v < 2 ^ 32 ->
  holds mem p (le32 v) -> peek32 mem p = v.
Proof.
  intros Hp Hn Hv Hh. unfold peek32, sizeof_uint32.
  pose proof (holds_read mem p (le32 v)) as Hr.
  rewrite le32_length in Hr. change (Z.of_nat 4) with 4 in Hr.
  rewrite Hr by (assumption || lia). now apply le32_combine.
Qed.

Lemma peek_size_le_size (mem : Memory) (p : ptr) (v : Z) :
  0 <= p -> p + sizeof_size_t <= size_modulus -> 0 <= v < size_modulus ->
  holds mem p (le_size v) -> peek_size mem p = v.
Proof.
  intros Hp Hn Hv Hh. unfold peek_size.
  pose proof (holds_read mem p (le_size v)) as Hr.
  rewrite le_size_length in Hr.
  rewrite Hr by (assumption || lia). now apply le_size_combine.
Qed.

Lemma peek32_range (mem : Memory) (p : ptr) : 0 <= peek32 mem p < 2 ^ 32.
Proof.
  unfold peek32. pose proof (le_combine_bound (map mem (addrs p sizeof_uint32))) as Hb.
  rewrite length_map, addrs_length in Hb. exact Hb.
Qed.

Lemma peek_size_range (mem : Memory) (p : ptr) : 0 <= peek_size mem p < size_modulus.
Proof.
  unfold peek_size.
  pose proof (le_combine_bound (map mem (addrs p sizeof_size_t))) as Hb.
  rewrite length_map, addrs_length in Hb. destruct dm; exact Hb.
Qed.



Lemma load32_run (mem : Memory) (p : ptr) (l : Log) :
  load32 mem p l = (peek32 mem p, mkLog (reads l ++ addrs p 4) (released l)).
Proof. reflexivity. Qed.

Lemma load_size_run (mem : Memory) (p : ptr) (l : Log) :
  load_size mem p l
  = (peek_size mem p, mkLog (reads l ++ addrs p sizeof_size_t) (released l)).
Proof. reflexivity. Qed.

Lemma copy_of_block_all (data : list byte) :
  copy_of_block data (Z.of_nat (List.length data)) = data.
Proof.
  unfold copy_of_block. rewrite Nat2Z.id, firstn_all, Nat.sub_diag. apply app_nil_r.
Qed.


Lemma append_to_buffer_owned (out data : list byte) :
  append_to_buffer out (mkSizedBuffer (Some data) (Z.of_nat (List.length data)))
  = out ++ le_size (Z.of_nat (List.length data)) ++ data.
Proof.
  unfold append_to_buffer. cbn [buffer length block_of]. now rewrite copy_of_block_all.
Qed.


End Basics.

Ltac dm_facts :=
  let Hsz := fresh "Hsz" in pose proof sizeof_size_t_range as Hsz;
  let Hmod := fresh "Hmod" in pose proof size_modulus_ge as Hmod.

(** * read_from_buffer *)

Section ReadFromBuffer.
Context {dm : DataModel}.
Variables (mem : Memory) (cursor end_ : ptr) (target : SizedBuffer) (l : Log).

(** The function with the monad unfolded. *)
Lemma read_from_buffer_run :
  read_from_buffer mem cursor end_ target l =
  if ptr_add cursor sizeof_size_t >=? end_ then ((KG_ERROR_INVALID, cursor, target), l)
  else
    let len := peek_size mem cursor in
    let cursor1 := ptr_add cursor sizeof_size_t in
    if (ptr_add cursor1 len >? end_) || (ptr_add cursor1 len <=? cursor1)
    then ((KG_ERROR_INVALID, cursor1, mkSizedBuffer (buffer target) len),
          mkLog (reads l ++ addrs cursor sizeof_size_t) (released l))
    else ((KG_ERROR_OK, ptr_add cursor1 len,
           mkSizedBuffer (Some (bytes_at mem cursor1 len)) len),
          mkLog (reads l ++ addrs cursor sizeof_size_t ++ addrs cursor1 len)
                (released l ++ owned_blocks (buffer target))).
Proof.
  unfold read_from_buffer.
  destruct (ptr_add cursor sizeof_size_t >=? end_); [reflexivity|].
  unfold bind at 1. rewrite load_size_run. cbv zeta.
  destruct (_ || _); [reflexivity|].
  unfold bind, memcpy_from, bytes_at. cbn [buffer].
  destruct (buffer target) as [blk|]; cbn [reset owned_blocks reads released].
  - now rewrite <- app_assoc.
  - unfold ret. cbn [reads released]. now rewrite <- app_assoc, app_nil_r.
Qed.

(** The three outcomes of [read_from_buffer] for a cursor at least
    [sizeof(size_t)] bytes below the top of the address space. *)
Lemma read_from_buffer_cases :
  0 <= cursor -> cursor + sizeof_size_t < size_modulus -> 0 <= end_ < size_modulus ->
  let len := peek_size mem cursor in
  (end_ <= cursor + sizeof_size_t /\
   read_from_buffer mem cursor end_ target l = ((KG_ERROR_INVALID, cursor, target), l)) \/
  (cursor + sizeof_size_t < end_ /\ (len = 0 \/ end_ < cursor + sizeof_size_t + len) /\
   read_from_buffer mem cursor end_ target l =
     ((KG_ERROR_INVALID, cursor + sizeof_size_t, mkSizedBuffer (buffer target) len),
      mkLog (reads l ++ addrs cursor sizeof_size_t) (released l))) \/
  (cursor + sizeof_size_t < end_ /\ 1 <= len /\ cursor + sizeof_size_t + len <= end_ /\
   read_from_buffer mem cursor end_ target l =
     ((KG_ERROR_OK, cursor + sizeof_size_t + len,
       mkSizedBuffer (Some (bytes_at mem (cursor + sizeof_size_t) len)) len),
      mkLog (reads l ++ addrs cursor sizeof_size_t ++ addrs (cursor + sizeof_size_t) len)
            (released l ++ owned_blocks (buffer target)))).
Proof.
  intros Hc Htop He. pose proof (peek_size_range mem cursor) as Hlen. dm_facts. cbv zeta.
  rewrite read_from_buffer_run. rewrite (ptr_add_small cursor sizeof_size_t) by lia.
  cbv zeta.
  destruct (cursor + sizeof_size_t >=? end_) eqn:E1.
  { left. split; [lia|reflexivity]. }
  right.
  destruct (ptr_add_cases (cursor + sizeof_size_t) (peek_size mem cursor))
    as [[Hs Heq]|[Hs Heq]]; try lia; rewrite Heq.
  - destruct (cursor + sizeof_size_t + peek_size mem cursor >? end_) eqn:E2;
      destruct (cursor + sizeof_size_t + peek_size mem cursor <=? cursor + sizeof_size_t)
        eqn:E3; cbn [orb].
    + left; split; [lia|]; split; [lia|reflexivity].
    + left; split; [lia|]; split; [lia|reflexivity].
    + left; split; [lia|]; split; [lia|reflexivity].
    + right. split; [lia|]. split; [lia|]. split; [lia|reflexivity].
  - destruct (cursor + sizeof_size_t + peek_size mem cursor - size_modulus
              <=? cursor + sizeof_size_t) eqn:E3; [|lia].
    rewrite orb_true_r. left. split; [lia|]. split; [lia|reflexivity].
Qed.

Lemma read_from_buffer_two_valued :
  two_valued (fst (fst (result (read_from_buffer mem cursor end_ target l)))).
Proof.
  rewrite read_from_buffer_run.
  destruct (ptr_add cursor sizeof_size_t >=? end_); [now right|].
  cbv zeta. destruct (_ || _); [now right|now left].
Qed.

Lemma read_from_buffer_released :
  buffer target = None ->
  released (log_of (read_from_buffer mem cursor end_ target l)) = released l.
Proof.
  intros Hnull. rewrite read_from_buffer_run.
  destruct (ptr_add cursor sizeof_size_t >=? end_); [reflexivity|].
  cbv zeta. destruct (_ || _); [reflexivity|].
  cbn [log_of snd released]. rewrite Hnull. cbn [owned_blocks]. apply app_nil_r.
Qed.

Lemma read_from_buffer_buffer_ok :
  buffer target = None ->
  buffer_ok (snd (result (read_from_buffer mem cursor end_ target l))) /\
  (fst (fst (result (read_from_buffer mem cursor end_ target l))) <> KG_ERROR_OK ->
   buffer (snd (result (read_from_buffer mem cursor end_ target l))) = None).
Proof.
  intros Hnull. rewrite read_from_buffer_run. unfold buffer_ok.
  destruct (ptr_add cursor sizeof_size_t >=? end_).
  { cbn [result fst snd]. rewrite Hnull. split; [exact I|reflexivity]. }
  cbv zeta. destruct (_ || _); cbn [result fst snd buffer length].
  - rewrite Hnull. split; [exact I|reflexivity].
  - split; [|intros Hne; now elim Hne].
    symmetry. apply bytes_at_length. apply peek_size_range.
Qed.

End ReadFromBuffer.

Lemma read_from_buffer_indep {dm : DataModel} (mem : Memory) (cursor end_ : ptr)
  (t t' : SizedBuffer) (l l' : Log) :
  let r := result (read_from_buffer mem cursor end_ t l) in
  let r' := result (read_from_buffer mem cursor end_ t' l') in
  fst r = fst r' /\ (fst (fst r) = KG_ERROR_OK -> snd r = snd r').
Proof.
  cbv zeta. rewrite !read_from_buffer_run.
  destruct (ptr_add cursor sizeof_size_t >=? end_); [split; [reflexivity|discriminate]|].
  cbv zeta. destruct (_ || _); [split; [reflexivity|discriminate]|].
  split; reflexivity.
Qed.

(** ** read_from_buffer on a well-formed, non-empty field *)

Lemma read_from_buffer_ok {dm : DataModel} (mem : Memory) (cursor end_ : ptr)
  (target : SizedBuffer) (l : Log) (data : list byte) :
  0 <= cursor -> end_ < size_modulus ->
  (1 <= List.length data)%nat ->
  cursor + sizeof_size_t + Z.of_nat (List.length data) <= end_ ->
  holds mem cursor (le_size (Z.of_nat (List.length data)) ++ data) ->
  read_from_buffer mem cursor end_ target l =
    ((KG_ERROR_OK, cursor + sizeof_size_t + Z.of_nat (List.length data),
      mkSizedBuffer (Some data) (Z.of_nat (List.length data))),
     mkLog (reads l ++ addrs cursor sizeof_size_t
                    ++ addrs (cursor + sizeof_size_t) (Z.of_nat (List.length data)))
           (released l ++ owned_blocks (buffer target))).
Proof.
  intros Hc He Hd Hfit Hh. dm_facts.
  set (n := Z.of_nat (List.length data)) in *.
  assert (Hlen : peek_size mem cursor = n).
  { apply peek_size_le_size; try lia. now apply holds_app_l in Hh. }
  assert (Hdata : bytes_at mem (cursor + sizeof_size_t) n = data).
  { apply holds_read; try lia. apply holds_app_r in Hh.
    now rewrite le_size_length in Hh. }
  destruct (read_from_buffer_cases mem cursor end_ target l)
    as [[H1 Hr] | [[H1 [H2 Hr]] | [H1 [H2 [H3 Hr]]]]]; try lia.
  now rewrite Hr, Hlen, Hdata.
Qed.

(** The exact condition under which [read_from_buffer] fails, for a
    cursor at least [sizeof(size_t)] bytes below the top of the address
    space: at most [sizeof(size_t)] bytes remain, or the length prefix is
    zero, or the field would end beyond [end_]. *)
Lemma read_from_buffer_invalid_iff {dm : DataModel} (mem : Memory) (cursor end_ : ptr)
  (target : SizedBuffer) (l : Log) :
  0 <= cursor -> cursor + sizeof_size_t < size_modulus -> 0 <= end_ < size_modulus ->
  fst (fst (result (read_from_buffer mem cursor end_ target l))) = KG_ERROR_INVALID <->
  (end_ - cursor <= sizeof_size_t \/ peek_size mem cursor = 0 \/
   end_ < cursor + sizeof_size_t + peek_size mem cursor).
Proof.
  intros Hc Htop He.
  destruct (read_from_buffer_cases mem cursor end_ target l Hc Htop He)
    as [[H1 Hr] | [[H1 [H2 Hr]] | [H1 [H2 [H3 Hr]]]]];
    rewrite Hr; cbn [result fst]; unfold KG_ERROR_INVALID, KG_ERROR_OK;
    (split; intros; try lia; try discriminate).
Qed.

(** ** Reads stay in range *)

Lemma reads_within_refl (lo hi : ptr) (l : Log) : reads_within lo hi l l.
Proof. exists []. split; [now rewrite app_nil_r|constructor]. Qed.

Lemma reads_within_trans (lo hi lo' hi' : ptr) (l0 l1 l2 : Log) :
  lo <= lo' -> hi' <= hi ->
  reads_within lo hi l0 l1 -> reads_within lo' hi' l1 l2 -> reads_within lo hi l0 l2.
Proof.
  intros Hlo Hhi [n1 [Hr1 Hf1]] [n2 [Hr2 Hf2]]. exists (n1 ++ n2). split.
  - rewrite Hr2, Hr1. now rewrite app_assoc.
  - apply Forall_app. split; [exact Hf1|].
    eapply Forall_impl; [|exact Hf2]. unfold in_range. intros a Ha. lia.
Qed.

Lemma reads_within_start (lo hi : ptr) (l0 l1 l2 : Log) :
  reads l1 = reads l0 -> reads_within lo hi l1 l2 -> reads_within lo hi l0 l2.
Proof. intros Heq [new [Hr Hf]]. exists new. split; [congruence|exact Hf]. Qed.

Lemma reads_within_addrs (lo hi : ptr) (l : Log) (new : list ptr) (rel : list (list byte)) :
  Forall (in_range lo hi) new ->
  reads_within lo hi l (mkLog (reads l ++ new) rel).
Proof. intros Hf. exists new. split; [reflexivity|exact Hf]. Qed.

Lemma addrs_within {dm : DataModel} (lo hi p n : Z) :
  0 <= p -> lo <= p -> p + n <= hi -> hi <= size_modulus ->
  Forall (in_range lo hi) (addrs p n).
Proof.
  intros Hp Hlo Hhi Htop. apply Forall_forall. intros a Ha.
  destruct (Z_le_dec n 0) as [Hn|Hn].
  - unfold addrs in Ha. replace (Z.to_nat n) with 0%nat in Ha by lia. destruct Ha.
  - apply addrs_in_range in Ha; unfold in_range; lia.
Qed.

Lemma read_from_buffer_safe {dm : DataModel} (mem : Memory) (cursor end_ : ptr)
  (target : SizedBuffer) (l : Log) :
  0 <= cursor -> cursor + sizeof_size_t < size_modulus -> end_ < size_modulus ->
  let r := read_from_buffer mem cursor end_ target l in
  reads_within cursor end_ l (log_of r) /\
  (fst (fst (result r)) = KG_ERROR_OK ->
   cursor <= snd (fst (result r)) <= end_).
Proof.
  intros Hc Htop He. dm_facts. cbv zeta.
  destruct (Z_lt_le_dec end_ 0) as [Hneg|Hpos].
  { rewrite read_from_buffer_run.
    replace (ptr_add cursor sizeof_size_t >=? end_) with true
      by (rewrite ptr_add_small by lia; lia).
    split; [apply reads_within_refl|discriminate]. }
  pose proof (peek_size_range mem cursor) as Hlen.
  destruct (read_from_buffer_cases mem cursor end_ target l Hc Htop ltac:(lia))
    as [[H1 Hr] | [[H1 [H2 Hr]] | [H1 [H2 [H3 Hr]]]]];
    rewrite Hr; cbn [result log_of fst snd].
  - split; [apply reads_within_refl|discriminate].
  - split; [|discriminate]. apply reads_within_addrs. apply addrs_within; lia.
  - split; [|intros _; lia]. apply reads_within_addrs.
    apply Forall_app. split; apply addrs_within; lia.
Qed.

(** * The paths through Deserialize *)

Section DeserializePaths.
Context {dm : DataModel} {F : Type} `{MessageVariant F}.
Variables (mem : Memory) (payload end_ : ptr) (m : KeyguardMessage F) (l : Log).

Lemma Deserialize_short :
  (ptr_add payload 4 >? end_) = true ->
  Deserialize mem payload end_ m l = ((KG_ERROR_INVALID, m), l).
Proof.
  intros Hs. unfold Deserialize, sizeof_uint32. now rewrite Hs.
Qed.

Lemma Deserialize_error :
  (ptr_add payload 4 >? end_) = false ->
  peek32 mem payload <> KG_ERROR_OK ->
  Deserialize mem payload end_ m l =
    ((peek32 mem payload, mkMessage (peek32 mem payload) (user_id_ m) (fields m)),
     mkLog (reads l ++ addrs payload 4) (released l)).
Proof.
  intros Hs He. unfold Deserialize, sizeof_uint32. rewrite Hs.
  unfold bind at 1. rewrite load32_run. cbn [error_].
  apply Z.eqb_neq in He. now rewrite He.
Qed.

Lemma Deserialize_at_end :
  (ptr_add payload 4 >? end_) = false ->
  peek32 mem payload = KG_ERROR_OK ->
  ptr_add payload 4 = end_ ->
  Deserialize mem payload end_ m l =
    ((KG_ERROR_INVALID, mkMessage KG_ERROR_OK (user_id_ m) (fields m)),
     mkLog (reads l ++ addrs payload 4) (released l)).
Proof.
  intros Hs He Hend. unfold Deserialize, sizeof_uint32. rewrite Hs.
  unfold bind at 1. rewrite load32_run. cbn [error_].
  rewrite He, Hend, !Z.eqb_refl. reflexivity.
Qed.

Lemma Deserialize_payload :
  (ptr_add payload 4 >? end_) = false ->
  peek32 mem payload = KG_ERROR_OK ->
  ptr_add payload 4 <> end_ ->
  Deserialize mem payload end_ m l =
    let (r, l') :=
      nonErrorDeserialize mem (ptr_add (ptr_add payload 4) 4) end_ (fields m)
        (mkLog (reads l ++ addrs payload 4 ++ addrs (ptr_add payload 4) 4) (released l)) in
    ((fst r, mkMessage (fst r) (peek32 mem (ptr_add payload 4)) (snd r)), l').
Proof.
  intros Hs He Hend. unfold Deserialize, sizeof_uint32. rewrite Hs.
  unfold bind at 1. rewrite load32_run. cbn [error_].
  rewrite He. cbn [Z.eqb KG_ERROR_OK]. apply Z.eqb_neq in Hend. rewrite Hend.
  unfold bind at 1. rewrite load32_run. cbn [reads released fields].
  rewrite <- app_assoc. unfold bind.
  destruct (nonErrorDeserialize _ _ _ _ _) as [[e f] l']. reflexivity.
Qed.

(** The paths through [Deserialize] for a range that does not reach the
    top four bytes of the address space. *)
Lemma Deserialize_cases :
  0 <= payload <= end_ -> end_ + 4 < size_modulus ->
  (end_ - payload < 4 /\
   Deserialize mem payload end_ m l = ((KG_ERROR_INVALID, m), l)) \/
  (4 <= end_ - payload /\ peek32 mem payload <> KG_ERROR_OK /\
   Deserialize mem payload end_ m l =
     ((peek32 mem payload, mkMessage (peek32 mem payload) (user_id_ m) (fields m)),
      mkLog (reads l ++ addrs payload 4) (released l))) \/
  (end_ - payload = 4 /\ peek32 mem payload = KG_ERROR_OK /\
   Deserialize mem payload end_ m l =
     ((KG_ERROR_INVALID, mkMessage KG_ERROR_OK (user_id_ m) (fields m)),
      mkLog (reads l ++ addrs payload 4) (released l))) \/
  (4 < end_ - payload /\ peek32 mem payload = KG_ERROR_OK /\
   Deserialize mem payload end_ m l =
     let (r, l') :=
       nonErrorDeserialize mem (payload + 8) end_ (fields m)
         (mkLog (reads l ++ addrs payload 4 ++ addrs (payload + 4) 4) (released l)) in
     ((fst r, mkMessage (fst r) (peek32 mem (payload + 4)) (snd r)), l')).
Proof.
  intros Hp Htop.
  assert (H4 : ptr_add payload 4 = payload + 4) by (apply ptr_add_small; lia).
  destruct (ptr_add payload 4 >? end_) eqn:Hs; pose proof Hs as Hs'; rewrite H4 in Hs'.
  { left. split; [lia|]. now apply Deserialize_short. }
  right.
  destruct (Z.eq_dec (peek32 mem payload) KG_ERROR_OK) as [He|He].
  2:{ left. split; [lia|]. split; [exact He|]. now apply Deserialize_error. }
  right.
  destruct (Z.eq_dec (ptr_add payload 4) end_) as [Hend|Hend];
    pose proof Hend as Hend'; rewrite H4 in Hend'.
  { left. split; [lia|]. split; [exact He|]. now apply Deserialize_at_end. }
  right. split; [lia|]. split; [exact He|].
  assert (H8 : ptr_add (payload + 4) 4 = payload + 8).
  { rewrite ptr_add_small by lia. lia. }
  rewrite Deserialize_payload by assumption. now rewrite H4, H8.
Qed.

(** Either the fields are untouched, or they are what the hook of the
    variant left. *)
Lemma Deserialize_fields_cases :
  let r := result (Deserialize mem payload end_ m l) in
  fields (snd r) = fields m \/
  exists p l0,
    r = (fst (result (nonErrorDeserialize mem p end_ (fields m) l0)),
         mkMessage (fst (result (nonErrorDeserialize mem p end_ (fields m) l0)))
           (peek32 mem (ptr_add payload 4))
           (snd (result (nonErrorDeserialize mem p end_ (fields m) l0)))).
Proof.
  cbv zeta.
  destruct (ptr_add payload 4 >? end_) eqn:Hs.
  { rewrite Deserialize_short by assumption. now left. }
  destruct (Z.eq_dec (peek32 mem payload) KG_ERROR_OK) as [He|He].
  2:{ rewrite Deserialize_error by assumption. now left. }
  destruct (Z.eq_dec (ptr_add payload 4) end_) as [Hend|Hend].
  { rewrite Deserialize_at_end by assumption. now left. }
  right. rewrite Deserialize_payload by assumption.
  exists (ptr_add (ptr_add payload 4) 4).
  exists (mkLog (reads l ++ addrs payload 4 ++ addrs (ptr_add payload 4) 4) (released l)).
  destruct (nonErrorDeserialize _ _ _ _ _) as [[e f] l']. reflexivity.
Qed.

Lemma Deserialize_released_cases (R : list (list byte)) :
  (forall p e l0,
      released (log_of (nonErrorDeserialize mem p e (fields m) l0)) = released l0 ++ R) ->
  let r := Deserialize mem payload end_ m l in
  (released (log_of r) = released l /\ fields (snd (result r)) = fields m) \/
  released (log_of r) = released l ++ R.
Proof.
  intros Hhook. cbv zeta.
  destruct (ptr_add payload 4 >? end_) eqn:Hs.
  { rewrite Deserialize_short by assumption. now left. }
  destruct (Z.eq_dec (peek32 mem payload) KG_ERROR_OK) as [He|He].
  2:{ rewrite Deserialize_error by assumption. now left. }
  destruct (Z.eq_dec (ptr_add payload 4) end_) as [Hend|Hend].
  { rewrite Deserialize_at_end by assumption. now left. }
  right. rewrite Deserialize_payload by assumption.
  specialize (Hhook (ptr_add (ptr_add payload 4) 4) end_
    (mkLog (reads l ++ addrs payload 4 ++ addrs (ptr_add payload 4) 4) (released l))).
  destruct (nonErrorDeserialize _ _ _ _ _) as [[e f] l']. exact Hhook.
Qed.

End DeserializePaths.

Lemma Deserialize_error_values_of_hook {dm : DataModel} {F : Type} `{MessageVariant F} :
  (forall mem payload end_ f l,
      two_valued (fst (result (nonErrorDeserialize mem payload end_ f l)))) ->
  Deserialize_error_values F.
Proof.
  intros Hhook mem payload end_ m l. cbv zeta.
  destruct (ptr_add payload 4 >? end_) eqn:Hs.
  { rewrite Deserialize_short by assumption. cbn. split; [left; now right|].
    now right; right. }
  destruct (Z.eq_dec (peek32 mem payload) KG_ERROR_OK) as [He|He].
  2:{ rewrite Deserialize_error by assumption. cbn. split; [right; auto|now left]. }
  destruct (Z.eq_dec (ptr_add payload 4) end_) as [Hend|Hend].
  { rewrite Deserialize_at_end by assumption. cbn. split; [left; now right|].
    now right; left. }
  rewrite Deserialize_payload by assumption.
  specialize (Hhook mem (ptr_add (ptr_add payload 4) 4) end_ (fields m)
    (mkLog (reads l ++ addrs payload 4 ++ addrs (ptr_add payload 4) 4) (released l))).
  destruct (nonErrorDeserialize _ _ _ _ _) as [[e f] l'].
  cbn in *. split; [now left|now left].
Qed.

Lemma Deserialize_reads_in_range_of_hook {dm : DataModel} {F : Type} `{MessageVariant F} :
  (forall mem p end_ f l0,
      0 <= p -> p + sizeof_size_t < size_modulus ->
      end_ + sizeof_size_t < size_modulus ->
      reads_within p end_ l0 (log_of (nonErrorDeserialize mem p end_ f l0))) ->
  Deserialize_reads_in_range F.
Proof.
  intros Hhook mem payload end_ m l Hp Htop Hgap. dm_facts.
  destruct (Deserialize_cases (dm := dm) mem payload end_ m l Hp ltac:(lia))
    as [[H1 Hr] | [[H1 [H2 Hr]] | [[H1 [H2 Hr]] | [H1 [H2 Hr]]]]]; rewrite Hr.
  - apply reads_within_refl.
  - apply reads_within_addrs. apply addrs_within; lia.
  - apply reads_within_addrs. apply addrs_within; lia.
  - assert (Hlen : payload + 8 <= end_) by lia.
    specialize (Hhook mem (payload + 8) end_ (fields m)
      (mkLog (reads l ++ addrs payload 4 ++ addrs (payload + 4) 4) (released l))).
    destruct (nonErrorDeserialize _ _ _ _ _) as [r l'].
    cbn [log_of snd] in *.
    apply reads_within_trans with (lo' := payload + 8) (hi' := end_)
      (l1 := mkLog (reads l ++ addrs payload 4 ++ addrs (payload + 4) 4) (released l));
      try lia.
    + apply reads_within_addrs. apply Forall_app. split; apply addrs_within; lia.
    + apply Hhook; lia.
Qed.

Lemma depends_on_input_only_of_hook {dm : DataModel} {F : Type} `{MessageVariant F} :
  (forall mem p e (f f' : F) l l',
      let h := result (nonErrorDeserialize mem p e f l) in
      let h' := result (nonErrorDeserialize mem p e f' l') in
      fst h = fst h' /\ (fst h = KG_ERROR_OK -> snd h = snd h')) ->
  depends_on_input_only F.
Proof.
  intros Hhook mem payload end_ m m' l l'. cbv zeta.
  destruct (ptr_add payload 4 >? end_) eqn:Hs.
  { rewrite !Deserialize_short by assumption. split; [reflexivity|discriminate]. }
  destruct (Z.eq_dec (peek32 mem payload) KG_ERROR_OK) as [He|He].
  2:{ rewrite !Deserialize_error by assumption. cbn. split; [reflexivity|contradiction]. }
  destruct (Z.eq_dec (ptr_add payload 4) end_) as [Hend|Hend].
  { rewrite !Deserialize_at_end by assumption. split; [reflexivity|discriminate]. }
  rewrite !Deserialize_payload by assumption.
  match goal with
  | |- context [nonErrorDeserialize ?a ?b ?c (fields m) ?l1] =>
    match goal with
    | |- context [nonErrorDeserialize a b c (fields m') ?l2] =>
      specialize (Hhook a b c (fields m) (fields m') l1 l2);
      destruct (nonErrorDeserialize a b c (fields m) l1) as [[e f] k1];
      destruct (nonErrorDeserialize a b c (fields m') l2) as [[e' f'] k2]
    end
  end.
  cbn in Hhook |- *. destruct Hhook as [Herr Hok]. subst e'.
  split; [reflexivity|]. intros Hres. now rewrite (Hok Hres).
Qed.

(** * The hooks of the four variants *)

Lemma memset_s_length (blk : list byte) (c : byte) (n : size_t) :
  List.length (memset_s blk c n) = List.length blk.
Proof.
  unfold memset_s. rewrite length_app, repeat_length, length_skipn. lia.
Qed.

Lemma memset_s_zero_prefix (blk : list byte) (n : size_t) :
  zero_prefix n (memset_s blk Byte.x00 n).
Proof.
  intros i Hi Hn. rewrite memset_s_length in Hi. unfold memset_s.
  rewrite nth_error_app1 by (rewrite repeat_length; lia).
  apply nth_error_repeat. lia.
Qed.

Lemma memset_s_whole (blk : list byte) (c : byte) :
  memset_s blk c (Z.of_nat (List.length blk)) = repeat c (List.length blk).
Proof.
  unfold memset_s. rewrite Nat2Z.id, Nat.min_id, skipn_all. apply app_nil_r.
Qed.

Lemma release_field_run (b : SizedBuffer) (l : Log) :
  release_field b l =
    (mkSizedBuffer None (length b),
     mkLog (reads l) (released l ++ owned_blocks (buffer b))).
Proof.
  unfold release_field, bind. destruct (buffer b) as [blk|]; cbn.
  - reflexivity.
  - rewrite app_nil_r. now destruct l.
Qed.

Lemma wipe_and_release_field_run (b : SizedBuffer) (l : Log) :
  wipe_and_release_field b l =
    (mkSizedBuffer None (length b),
     mkLog (reads l) (released l ++ owned_blocks (wiped_block b))).
Proof.
  unfold wipe_and_release_field, wiped_block.
  destruct b as [[blk|] n]; cbn.
  - reflexivity.
  - unfold ret. rewrite app_nil_r. now destruct l.
Qed.

Section Hooks.
Context {dm : DataModel}.
Variables (mem : Memory) (p end_ : ptr) (l : Log).

(** The three single-field hooks and the two-field hook, as one call (or
    two calls) of [read_from_buffer] on fields that own nothing. *)
Lemma EnrollRequest_hook_run (f : EnrollRequest.t) :
  EnrollRequest.nonErrorDeserialize mem p end_ f l =
  let (r, l') :=
    read_from_buffer mem p end_
      (mkSizedBuffer None (length (EnrollRequest.provided_password_ f)))
      (mkLog (reads l)
             (released l ++ owned_blocks (wiped_block (EnrollRequest.provided_password_ f)))) in
  ((fst (fst r), EnrollRequest.mk (snd r)), l').
Proof.
  unfold EnrollRequest.nonErrorDeserialize. unfold bind at 1.
  rewrite wipe_and_release_field_run. unfold bind, ret.
  destruct (read_from_buffer _ _ _ _ _) as [[[e c] t] l']. reflexivity.
Qed.

Lemma EnrollResponse_hook_run (f : EnrollResponse.t) :
  EnrollResponse.nonErrorDeserialize mem p end_ f l =
  let (r, l') :=
    read_from_buffer mem p end_
      (mkSizedBuffer None (length (EnrollResponse.enrolled_password_handle_ f)))
      (mkLog (reads l)
             (released l
              ++ owned_blocks (buffer (EnrollResponse.enrolled_password_handle_ f)))) in
  ((fst (fst r), EnrollResponse.mk (snd r)), l').
Proof.
  unfold EnrollResponse.nonErrorDeserialize. unfold bind at 1.
  rewrite release_field_run. unfold bind, ret.
  destruct (read_from_buffer _ _ _ _ _) as [[[e c] t] l']. reflexivity.
Qed.

Lemma VerifyResponse_hook_run (f : VerifyResponse.t) :
  VerifyResponse.nonErrorDeserialize mem p end_ f l =
  let (r, l') :=
    read_from_buffer mem p end_
      (mkSizedBuffer None (length (VerifyResponse.verification_token_ f)))
      (mkLog (reads l)
             (released l ++ owned_blocks (buffer (VerifyResponse.verification_token_ f)))) in
  ((fst (fst r), VerifyResponse.mk (snd r)), l').
Proof.
  unfold VerifyResponse.nonErrorDeserialize. unfold bind at 1.
  rewrite release_field_run. unfold bind, ret.
  destruct (read_from_buffer _ _ _ _ _) as [[[e c] t] l']. reflexivity.
Qed.

Lemma VerifyRequest_hook_run (f : VerifyRequest.t) :
  VerifyRequest.nonErrorDeserialize mem p end_ f l =
  let pw0 := mkSizedBuffer None (length (VerifyRequest.provided_password_ f)) in
  let (r, l1) :=
    read_from_buffer mem p end_
      (mkSizedBuffer None (length (VerifyRequest.password_handle_ f)))
      (mkLog (reads l)
             (released l ++ owned_blocks (buffer (VerifyRequest.password_handle_ f))
              ++ owned_blocks (wiped_block (VerifyRequest.provided_password_ f)))) in
  if fst (fst r) =? KG_ERROR_OK
  then let (r2, l2) := read_from_buffer mem (snd (fst r)) end_ pw0 l1 in
       ((fst (fst r2), VerifyRequest.mk (snd r) (snd r2)), l2)
  else ((fst (fst r), VerifyRequest.mk (snd r) pw0), l1).
Proof.
  unfold VerifyRequest.nonErrorDeserialize. unfold bind at 1.
  rewrite release_field_run. unfold bind at 1.
  rewrite wipe_and_release_field_run. cbn [reads released]. rewrite <- app_assoc.
  unfold bind at 1. cbv zeta.
  destruct (read_from_buffer _ _ _ _ _) as [[[e c] t] l1]. cbn [fst snd].
  destruct (e =? KG_ERROR_OK); cbn [negb]; [|reflexivity].
  unfold bind, ret.
  destruct (read_from_buffer _ _ _ _ _) as [[[e2 c2] t2] l2]. reflexivity.
Qed.

End Hooks.


Lemma EnrollRequest_single_field {dm : DataModel} : single_field_hook EnrollRequest.mk.
Proof.
  intros mem p e f l. eexists. eexists. split; [|split; [|apply EnrollRequest_hook_run]];
    reflexivity.
Qed.

Lemma EnrollResponse_single_field {dm : DataModel} : single_field_hook EnrollResponse.mk.
Proof.
  intros mem p e f l. eexists. eexists. split; [|split; [|apply EnrollResponse_hook_run]];
    reflexivity.
Qed.

Lemma VerifyResponse_single_field {dm : DataModel} : single_field_hook VerifyResponse.mk.
Proof.
  intros mem p e f l. eexists. eexists. split; [|split; [|apply VerifyResponse_hook_run]];
    reflexivity.
Qed.

(** Side conditions of the examples, which are closed terms. *)
Ltac by_evaluation :=
  first [ lia | reflexivity | discriminate | exact I
        | vm_compute; first [reflexivity | discriminate | intuition discriminate] ].

(** * The envelope on error messages *)

(** C6: a message whose error is not OK has serialized size 4 and
    serializes to the four bytes of its error code and nothing else; on
    an input range of at least four bytes whose first four bytes hold a
    code other than OK, [Deserialize] returns that code and reads exactly
    those four bytes, whatever follows them.  This holds for every
    variant and for either width of [size_t]. *)
Theorem error_message_short_circuit {dm : DataModel} {F : Type} `{MessageVariant F}
  (m m0 : KeyguardMessage F) (mem : Memory) (payload end_ : ptr) (l : Log) :
  error_ m <> KG_ERROR_OK ->
  0 <= payload -> payload + 4 <= end_ -> end_ < size_modulus ->
  peek32 mem payload <> KG_ERROR_OK ->
  GetSerializedSize m = 4 /\
  Serialize m = le32 (error_ m) /\
  List.length (Serialize m) = 4%nat /\
  fst (result (Deserialize mem payload end_ m0 l)) = peek32 mem payload /\
  reads (log_of (Deserialize mem payload end_ m0 l)) =
    reads l ++ [payload; payload + 1; payload + 2; payload + 3].
Proof.
  intros Hm Hp Hfit He Hcode.
  assert (Hneq : (error_ m =? KG_ERROR_OK) = false) by now apply Z.eqb_neq.
  assert (Hs : (ptr_add payload 4 >? end_) = false).
  { rewrite ptr_add_small by lia. lia. }
  repeat split.
  - unfold GetSerializedSize. now rewrite Hneq.
  - unfold Serialize. now rewrite Hneq.
  - unfold Serialize. rewrite Hneq. apply le32_length.
  - now rewrite Deserialize_error.
  - rewrite Deserialize_error by assumption. cbn [log_of snd reads].
    rewrite addrs_4, !ptr_add_small by lia. now rewrite Z.add_0_r.
Qed.

(** C10: on an input range whose first four bytes hold a code other than
    OK, [Deserialize] changes the stored error and nothing else: the user
    id and every buffer field of the variant are as before, and no storage
    is released. *)
Theorem Deserialize_error_frame {dm : DataModel} {F : Type} `{MessageVariant F}
  (m : KeyguardMessage F) (mem : Memory) (payload end_ : ptr) (l : Log) :
  0 <= payload -> payload + 4 <= end_ -> end_ < size_modulus ->
  peek32 mem payload <> KG_ERROR_OK ->
  let m' := snd (result (Deserialize mem payload end_ m l)) in
  error_ m' = peek32 mem payload /\
  user_id_ m' = user_id_ m /\
  fields m' = fields m /\
  released (log_of (Deserialize mem payload end_ m l)) = released l.
Proof.
  intros Hp Hfit He Hcode.
  assert (Hs : (ptr_add payload 4 >? end_) = false).
  { rewrite ptr_add_small by lia. lia. }
  cbv zeta. rewrite Deserialize_error by assumption.
  cbn. repeat split.
Qed.

(** * Error values *)

Lemma single_field_hook_two_valued {dm : DataModel} {F : Type} `{MessageVariant F}
  (mk : SizedBuffer -> F) :
  single_field_hook mk ->
  forall mem payload end_ f l,
    two_valued (fst (result (nonErrorDeserialize mem payload end_ f l))).
Proof.
  intros Hhook mem payload end_ f l.
  destruct (Hhook mem payload end_ f l) as [t [l0 [_ [_ Hrun]]]]. rewrite Hrun.
  pose proof (read_from_buffer_two_valued mem payload end_ t l0) as Htv.
  destruct (read_from_buffer _ _ _ _ _) as [[[e c] t'] l']. exact Htv.
Qed.

Lemma VerifyRequest_hook_two_valued {dm : DataModel} mem payload end_ f l :
  two_valued (fst (result (VerifyRequest.nonErrorDeserialize mem payload end_ f l))).
Proof.
  rewrite VerifyRequest_hook_run. cbv zeta.
  match goal with |- context [read_from_buffer ?a ?b ?c ?d ?e] =>
    pose proof (read_from_buffer_two_valued a b c d e) as H1;
    destruct (read_from_buffer a b c d e) as [[[e1 p1] h1] ?] end.
  cbn in H1. destruct H1 as [-> | ->]; cbn.
  - match goal with |- context [read_from_buffer ?a ?b ?c ?d ?e] =>
      pose proof (read_from_buffer_two_valued a b c d e) as H2;
      destruct (read_from_buffer a b c d e) as [[[e2 p2] h2] ?] end.
    exact H2.
  - now right.
Qed.

(** C8, as the code has it: for each of the four variants and every
    input, [Deserialize] returns OK, INVALID, or the code other than OK
    that the first four bytes of the input hold, which it returns as
    read; the error it leaves in the object is the returned value, or OK
    (the range ends right after an OK code), or the error the object held
    before (the range is shorter than four bytes). *)
Theorem Deserialize_returns_enumerator_or_wire_code {dm : DataModel} :
  Deserialize_error_values VerifyRequest.t /\
  Deserialize_error_values VerifyResponse.t /\
  Deserialize_error_values EnrollRequest.t /\
  Deserialize_error_values EnrollResponse.t.
Proof.
  split; [|split; [|split]]; apply Deserialize_error_values_of_hook.
  - exact VerifyRequest_hook_two_valued.
  - exact (single_field_hook_two_valued _ VerifyResponse_single_field).
  - exact (single_field_hook_two_valued _ EnrollRequest_single_field).
  - exact (single_field_hook_two_valued _ EnrollResponse_single_field).
Qed.

(** * Constructors *)

(** C9, as the code has it: every constructor that takes [SizedBuffer]
    arguments moves the storage of each source into the corresponding
    field and copies its length; afterwards the source owns no storage,
    and its length is what it was before the call. *)
Theorem constructors_move_storage_and_keep_source_length
  (user_id : uint32) (a b : SizedBuffer) :
  (let '(m, src_a, src_b) := VerifyRequest.ctor user_id a b in
   VerifyRequest.password_handle_ (fields m) = a /\
   VerifyRequest.provided_password_ (fields m) = b /\
   buffer src_a = None /\ length src_a = length a /\
   buffer src_b = None /\ length src_b = length b) /\
  (let '(m, src_a) := VerifyResponse.ctor user_id a in
   VerifyResponse.verification_token_ (fields m) = a /\
   buffer src_a = None /\ length src_a = length a) /\
  (let '(m, src_a) := EnrollRequest.ctor user_id a in
   EnrollRequest.provided_password_ (fields m) = a /\
   buffer src_a = None /\ length src_a = length a) /\
  (let '(m, src_a) := EnrollResponse.ctor user_id a in
   EnrollResponse.enrolled_password_handle_ (fields m) = a /\
   buffer src_a = None /\ length src_a = length a).
Proof.
  destruct a as [pa na], b as [pb nb]. cbn. repeat split.
Qed.

(** C9 as stated fails: after [EnrollRequest(3857, &src)] with a
    three-byte source, the source owns no storage but its length is
    still 3, so it is not the empty buffer. *)
Lemma constructor_source_keeps_its_length :
  let src := mkSizedBuffer (Some [Byte.x61; Byte.x62; Byte.x63]) 3 in
  let src' := snd (EnrollRequest.ctor 3857 src) in
  buffer src' = None /\ length src' = 3 /\ src' <> zeroed_SizedBuffer.
Proof.
  cbv zeta. repeat split. cbn. discriminate.
Qed.

(** * Release of buffer storage *)

Lemma EnrollRequest_hook_released {dm : DataModel} (mem : Memory) (payload end_ : ptr)
  (pw : SizedBuffer) (l : Log) :
  released (log_of (EnrollRequest.nonErrorDeserialize mem payload end_
                      (EnrollRequest.mk pw) l))
  = released l ++ owned_blocks (wiped_block pw).
Proof.
  rewrite EnrollRequest_hook_run. cbn [EnrollRequest.provided_password_].
  match goal with |- context [read_from_buffer ?a ?b ?c ?d ?e] =>
    pose proof (read_from_buffer_released a b c d e eq_refl) as Hr;
    destruct (read_from_buffer a b c d e) as [[[e1 p1] h1] l1] end.
  exact Hr.
Qed.

Lemma VerifyRequest_hook_released {dm : DataModel} (mem : Memory) (payload end_ : ptr)
  (handle pw : SizedBuffer) (l : Log) :
  released (log_of (VerifyRequest.nonErrorDeserialize mem payload end_
                      (VerifyRequest.mk handle pw) l))
  = released l ++ owned_blocks (buffer handle) ++ owned_blocks (wiped_block pw).
Proof.
  rewrite VerifyRequest_hook_run. cbv zeta.
  cbn [VerifyRequest.provided_password_ VerifyRequest.password_handle_].
  match goal with |- context [read_from_buffer ?a ?b ?c ?d ?e] =>
    pose proof (read_from_buffer_released a b c d e eq_refl) as Hr;
    destruct (read_from_buffer a b c d e) as [[[e1 p1] h1] l1] end.
  cbn [log_of fst snd released] in Hr |- *.
  destruct (e1 =? KG_ERROR_OK); [|exact Hr].
  match goal with |- context [read_from_buffer ?a ?b ?c ?d ?e] =>
    pose proof (read_from_buffer_released a b c d e eq_refl) as Hr2;
    destruct (read_from_buffer a b c d e) as [[[e2 p2] h2] l2] end.
  cbn [log_of snd] in Hr2 |- *. now rewrite Hr2.
Qed.

(** C7: the storage of the plaintext password of an [EnrollRequest] or a
    [VerifyRequest] is released only after its first [length] bytes have
    been set to zero (all of it, for a block of [length] bytes), both by
    the destructor and by a decode into the same object, which either
    leaves the fields as they are or releases the wiped block; the
    password handle of a [VerifyRequest], and the handle and token of the
    responses, are released with their content as it is. *)
Theorem password_storage_is_wiped_before_release {dm : DataModel}
  (mem : Memory) (payload end_ : ptr) (l : Log) (e : keyguard_error_t) (uid : uint32)
  (pw other : SizedBuffer) (blk : list byte) :
  buffer pw = Some blk ->
  exists wiped : list byte,
    List.length wiped = List.length blk /\
    zero_prefix (length pw) wiped /\
    (length pw = Z.of_nat (List.length blk) ->
       wiped = repeat Byte.x00 (List.length blk)) /\
    released (log_of (EnrollRequest.dtor (EnrollRequest.mk pw) l))
      = released l ++ [wiped] /\
    released (log_of (VerifyRequest.dtor (VerifyRequest.mk other pw) l))
      = released l ++ owned_blocks (buffer other) ++ [wiped] /\
    (let r := Deserialize mem payload end_ (mkMessage e uid (EnrollRequest.mk pw)) l in
     (released (log_of r) = released l /\ fields (snd (result r)) = EnrollRequest.mk pw) \/
     released (log_of r) = released l ++ [wiped]) /\
    (let r := Deserialize mem payload end_ (mkMessage e uid (VerifyRequest.mk other pw)) l in
     (released (log_of r) = released l /\ fields (snd (result r)) = VerifyRequest.mk other pw) \/
     released (log_of r) = released l ++ owned_blocks (buffer other) ++ [wiped]) /\
    released (log_of (EnrollResponse.dtor (EnrollResponse.mk other) l))
      = released l ++ owned_blocks (buffer other) /\
    released (log_of (VerifyResponse.dtor (VerifyResponse.mk other) l))
      = released l ++ owned_blocks (buffer other).
Proof.
  intros Hb. exists (memset_s blk Byte.x00 (length pw)).
  assert (Hw : owned_blocks (wiped_block pw) = [memset_s blk Byte.x00 (length pw)]).
  { unfold wiped_block. now rewrite Hb. }
  split; [apply memset_s_length|].
  split; [apply memset_s_zero_prefix|].
  split; [intros ->; apply memset_s_whole|].
  split.
  { unfold EnrollRequest.dtor. cbn [EnrollRequest.provided_password_].
    unfold bind at 1. rewrite wipe_and_release_field_run, Hw. reflexivity. }
  split.
  { unfold VerifyRequest.dtor.
    cbn [VerifyRequest.provided_password_ VerifyRequest.password_handle_].
    unfold bind at 1. rewrite release_field_run.
    unfold bind at 1. rewrite wipe_and_release_field_run, Hw.
    cbn. now rewrite <- app_assoc. }
  split.
  { rewrite <- Hw.
    apply (Deserialize_released_cases mem payload end_
             (mkMessage e uid (EnrollRequest.mk pw)) l).
    intros p e0 l0. apply EnrollRequest_hook_released. }
  split.
  { rewrite <- Hw.
    apply (Deserialize_released_cases mem payload end_
             (mkMessage e uid (VerifyRequest.mk other pw)) l).
    intros p e0 l0. apply VerifyRequest_hook_released. }
  split.
  { unfold EnrollResponse.dtor. cbn [EnrollResponse.enrolled_password_handle_].
    unfold bind at 1. now rewrite release_field_run. }
  unfold VerifyResponse.dtor. cbn [VerifyResponse.verification_token_].
  destruct other as [[b|] n]; cbn; destruct (n >? 0); cbn;
    rewrite ?app_nil_r; reflexivity.
Qed.

(** ** The statements above on examples, with a 32-bit [size_t] *)

Section ErrorAndReleaseExamples.
Local Existing Instance ILP32.

Lemma error_message_short_circuit_witness :
  let m := SetError KG_ERROR_INVALID
             (fst (EnrollRequest.ctor 3857 (mkSizedBuffer (Some [Byte.x61; Byte.x62]) 2))) in
  let mem := place 4096 (le32 KG_ERROR_INVALID ++ [Byte.x07; Byte.x08; Byte.x09]) in
  GetSerializedSize m = 4 /\
  Serialize m = le32 KG_ERROR_INVALID /\
  List.length (Serialize m) = 4%nat /\
  fst (result (Deserialize mem 4096 4103 (default_message (F := EnrollRequest.t) 0) empty_log))
    = peek32 mem 4096 /\
  reads (log_of (Deserialize mem 4096 4103 (default_message (F := EnrollRequest.t) 0) empty_log))
    = [] ++ [4096; 4096 + 1; 4096 + 2; 4096 + 3].
Proof.
  intros m mem.
  apply (error_message_short_circuit m (default_message 0) mem 4096 4103 empty_log).
  - vm_compute. discriminate.
  - lia.
  - lia.
  - reflexivity.
  - vm_compute. discriminate.
Defined.

Lemma Deserialize_error_frame_witness :
  let m := fst (fst (VerifyRequest.ctor 3857 (mkSizedBuffer (Some [Byte.x61; Byte.x62]) 2)
                                             (mkSizedBuffer (Some [Byte.x70]) 1))) in
  let mem := place 4096 (le32 5 ++ [Byte.x07; Byte.x08; Byte.x09; Byte.x0a; Byte.x0b]) in
  let m' := snd (result (Deserialize mem 4096 4105 m empty_log)) in
  error_ m' = peek32 mem 4096 /\
  user_id_ m' = user_id_ m /\
  fields m' = fields m /\
  released (log_of (Deserialize mem 4096 4105 m empty_log)) = released empty_log.
Proof.
  intros m mem.
  apply (Deserialize_error_frame m mem 4096 4105 empty_log).
  - lia.
  - lia.
  - reflexivity.
  - vm_compute. discriminate.
Defined.

(** C8 as stated fails: a four-byte input holding the code 2 makes
    [Deserialize] return 2 and store 2, which is neither OK nor INVALID. *)
Lemma Deserialize_returns_unlisted_error :
  let mem := place 4096 (le32 2) in
  let r := result (Deserialize mem 4096 4100
                     (default_message (F := EnrollRequest.t) 0) empty_log) in
  fst r = 2 /\ error_ (snd r) = 2 /\ ~ two_valued (fst r).
Proof.
  cbv zeta. repeat split.
  intros [Hf | Hf]; vm_compute in Hf; discriminate.
Qed.

Lemma password_storage_is_wiped_before_release_witness :
  let mem := place 4096 (le32 0 ++ le32 7 ++ le32 1 ++ [Byte.x41]) in
  let pw := mkSizedBuffer (Some [Byte.x70; Byte.x77; Byte.x64]) 3 in
  let other := mkSizedBuffer (Some [Byte.x68]) 1 in
  exists wiped : list byte,
    List.length wiped = 3%nat /\
    zero_prefix 3 wiped /\
    (3 = 3 -> wiped = [Byte.x00; Byte.x00; Byte.x00]) /\
    released (log_of (EnrollRequest.dtor (EnrollRequest.mk pw) empty_log))
      = [] ++ [wiped] /\
    released (log_of (VerifyRequest.dtor (VerifyRequest.mk other pw) empty_log))
      = [] ++ [[Byte.x68]] ++ [wiped] /\
    (let r := Deserialize mem 4096 4109 (mkMessage KG_ERROR_OK 3857 (EnrollRequest.mk pw))
                empty_log in
     (released (log_of r) = [] /\ fields (snd (result r)) = EnrollRequest.mk pw) \/
     released (log_of r) = [] ++ [wiped]) /\
    (let r := Deserialize mem 4096 4109
                (mkMessage KG_ERROR_OK 3857 (VerifyRequest.mk other pw)) empty_log in
     (released (log_of r) = [] /\ fields (snd (result r)) = VerifyRequest.mk other pw) \/
     released (log_of r) = [] ++ [[Byte.x68]] ++ [wiped]) /\
    released (log_of (EnrollResponse.dtor (EnrollResponse.mk other) empty_log))
      = [] ++ [[Byte.x68]] /\
    released (log_of (VerifyResponse.dtor (VerifyResponse.mk other) empty_log))
      = [] ++ [[Byte.x68]].
Proof.
  exact (password_storage_is_wiped_before_release
           (place 4096 (le32 0 ++ le32 7 ++ le32 1 ++ [Byte.x41])) 4096 4109 empty_log
           KG_ERROR_OK 3857
           (mkSizedBuffer (Some [Byte.x70; Byte.x77; Byte.x64]) 3)
           (mkSizedBuffer (Some [Byte.x68]) 1)
           [Byte.x70; Byte.x77; Byte.x64] eq_refl).
Defined.

End ErrorAndReleaseExamples.

(** * Reads stay in range, but for the short OK envelope *)

Lemma single_field_hook_safe {dm : DataModel} {F : Type} `{MessageVariant F}
  (mk : SizedBuffer -> F) :
  single_field_hook mk ->
  forall mem p end_ f l0,
    0 <= p -> p + sizeof_size_t < size_modulus -> end_ + sizeof_size_t < size_modulus ->
    reads_within p end_ l0 (log_of (nonErrorDeserialize mem p end_ f l0)).
Proof.
  intros Hhook mem p end_ f l0 Hp Htop He. dm_facts.
  destruct (Hhook mem p end_ f l0) as [t [l1 [_ [Hreads Hrun]]]]. rewrite Hrun.
  destruct (read_from_buffer_safe mem p end_ t l1 Hp Htop ltac:(lia)) as [Hs _].
  destruct (read_from_buffer _ _ _ _ _) as [[[e c] t'] l']. cbn [log_of snd] in *.
  eapply reads_within_start; eassumption.
Qed.

Lemma VerifyRequest_hook_safe {dm : DataModel} mem p end_ f l0 :
  0 <= p -> p + sizeof_size_t < size_modulus -> end_ + sizeof_size_t < size_modulus ->
  reads_within p end_ l0 (log_of (VerifyRequest.nonErrorDeserialize mem p end_ f l0)).
Proof.
  intros Hp Htop He. dm_facts. rewrite VerifyRequest_hook_run. cbv zeta.
  match goal with |- context [read_from_buffer mem p end_ ?t ?l1] =>
    pose proof (read_from_buffer_safe mem p end_ t l1 Hp Htop ltac:(lia)) as Hs1;
    destruct (read_from_buffer mem p end_ t l1) as [[[e1 p1] h1] l3]
  end.
  cbn [log_of result fst snd] in Hs1 |- *. destruct Hs1 as [Hw1 Hcur].
  assert (Hw : reads_within p end_ l0 l3).
  { eapply reads_within_start; [|exact Hw1]. reflexivity. }
  destruct (Z.eq_dec e1 KG_ERROR_OK) as [He1|He1].
  - subst e1. specialize (Hcur eq_refl). cbn [Z.eqb KG_ERROR_OK].
    match goal with |- context [read_from_buffer mem p1 end_ ?t ?l1] =>
      pose proof (read_from_buffer_safe (dm := dm) mem p1 end_ t l1
                    ltac:(lia) ltac:(lia) ltac:(lia))
        as Hs2;
      destruct (read_from_buffer mem p1 end_ t l1) as [[[e2 p2] pw2] l4]
    end.
    cbn [log_of result fst snd] in Hs2 |- *. destruct Hs2 as [Hw2 _].
    apply reads_within_trans with (lo' := p1) (hi' := end_) (l1 := l3);
      try lia; assumption.
  - apply Z.eqb_neq in He1. rewrite He1. cbn. exact Hw.
Qed.

(** Outside the short OK envelope, [Deserialize] of every variant reads
    inside the input range only. *)
Lemma Deserialize_reads_in_range_all {dm : DataModel} :
  Deserialize_reads_in_range VerifyRequest.t /\
  Deserialize_reads_in_range VerifyResponse.t /\
  Deserialize_reads_in_range EnrollRequest.t /\
  Deserialize_reads_in_range EnrollResponse.t.
Proof.
  split; [|split; [|split]]; apply Deserialize_reads_in_range_of_hook.
  - exact VerifyRequest_hook_safe.
  - exact (single_field_hook_safe _ VerifyResponse_single_field).
  - exact (single_field_hook_safe _ EnrollRequest_single_field).
  - exact (single_field_hook_safe _ EnrollResponse_single_field).
Qed.

(** * Decoding what Serialize wrote *)

Lemma Serialize_ok {dm : DataModel} {F : Type} `{MessageVariant F} (m : KeyguardMessage F) :
  error_ m = KG_ERROR_OK ->
  Serialize m = le32 KG_ERROR_OK ++ le32 (user_id_ m) ++ nonErrorSerialize (fields m).
Proof. intros He. unfold Serialize. now rewrite He. Qed.

Section WireForms.
Context {dm : DataModel}.
Variables (uid : uint32) (a b : list byte).
Let A := mkSizedBuffer (Some a) (Z.of_nat (List.length a)).
Let B := mkSizedBuffer (Some b) (Z.of_nat (List.length b)).

Lemma EnrollRequest_wire :
  Serialize (mkMessage KG_ERROR_OK uid (EnrollRequest.mk A))
  = le32 KG_ERROR_OK ++ le32 uid ++ le_size (Z.of_nat (List.length a)) ++ a.
Proof.
  rewrite Serialize_ok by reflexivity. do 2 f_equal.
  apply (append_to_buffer_owned [] a).
Qed.

Lemma EnrollResponse_wire :
  Serialize (mkMessage KG_ERROR_OK uid (EnrollResponse.mk A))
  = le32 KG_ERROR_OK ++ le32 uid ++ le_size (Z.of_nat (List.length a)) ++ a.
Proof.
  rewrite Serialize_ok by reflexivity. do 2 f_equal.
  apply (append_to_buffer_owned [] a).
Qed.

Lemma VerifyResponse_wire :
  Serialize (mkMessage KG_ERROR_OK uid (VerifyResponse.mk A))
  = le32 KG_ERROR_OK ++ le32 uid ++ le_size (Z.of_nat (List.length a)) ++ a.
Proof.
  rewrite Serialize_ok by reflexivity. do 2 f_equal.
  apply (append_to_buffer_owned [] a).
Qed.

Lemma VerifyRequest_wire :
  Serialize (mkMessage KG_ERROR_OK uid (VerifyRequest.mk A B))
  = le32 KG_ERROR_OK ++ le32 uid ++ (le_size (Z.of_nat (List.length a)) ++ a)
    ++ le_size (Z.of_nat (List.length b)) ++ b.
Proof.
  rewrite Serialize_ok by reflexivity. do 2 f_equal.
  cbn [nonErrorSerialize VerifyRequest_variant fields].
  unfold VerifyRequest.nonErrorSerialize.
  cbn [VerifyRequest.password_handle_ VerifyRequest.provided_password_].
  unfold A, B. now rewrite !append_to_buffer_owned.
Qed.

End WireForms.

Lemma holds_field_after_envelope (mem : Memory) (payload : ptr) (uid : uint32)
  (rest : list byte) :
  holds mem payload (le32 KG_ERROR_OK ++ le32 uid ++ rest) ->
  holds mem (payload + 8) rest.
Proof.
  intros Hh. apply holds_app_r in Hh. rewrite le32_length in Hh.
  apply holds_app_r in Hh. rewrite le32_length in Hh.
  now replace (payload + 8) with (payload + Z.of_nat 4 + Z.of_nat 4) by lia.
Qed.

Section DecodeSerialized.
Context {dm : DataModel}.
Variables (mem : Memory) (base : ptr) (uid : uint32) (l : Log).
Hypothesis Hbase : 0 <= base.
Hypothesis Huid : 0 <= uid < 2 ^ 32.

Lemma Deserialize_ok_envelope {F : Type} `{MessageVariant F}
  (end_ : ptr) (m : KeyguardMessage F) (rest : list byte) :
  base + 8 <= end_ -> end_ < size_modulus ->
  holds mem base (le32 KG_ERROR_OK ++ le32 uid ++ rest) ->
  Deserialize mem base end_ m l =
    let (r, l') :=
      nonErrorDeserialize mem (base + 8) end_ (fields m)
        (mkLog (reads l ++ addrs base 4 ++ addrs (base + 4) 4) (released l)) in
    ((fst r, mkMessage (fst r) uid (snd r)), l').
Proof.
  intros Hfit He Hh. dm_facts.
  assert (Herr : peek32 mem base = KG_ERROR_OK).
  { apply peek32_le32; try lia; [now cbv|]. now apply holds_app_l in Hh. }
  assert (Huid' : peek32 mem (base + 4) = uid).
  { apply peek32_le32; try lia.
    apply holds_app_r in Hh. rewrite le32_length in Hh.
    now apply holds_app_l in Hh. }
  rewrite Deserialize_payload;
    rewrite ?(ptr_add_small base 4), ?(ptr_add_small (base + 4) 4) by lia;
    try assumption; try lia.
  rewrite Huid'. now replace (base + 4 + 4) with (base + 8) by lia.
Qed.

(** A single-field message on the wire decodes to its field, into any
    object, and the bytes read are those of the message. *)
Lemma single_field_decode {F : Type} `{MessageVariant F} (mk : SizedBuffer -> F)
  (m0 : KeyguardMessage F) (data rest : list byte) :
  single_field_hook mk ->
  (1 <= List.length data)%nat ->
  base + 8 + sizeof_size_t + Z.of_nat (List.length data) + Z.of_nat (List.length rest)
    < size_modulus ->
  holds mem base (le32 KG_ERROR_OK ++ le32 uid
                  ++ (le_size (Z.of_nat (List.length data)) ++ data) ++ rest) ->
  let r := Deserialize mem base
             (base + 8 + sizeof_size_t + Z.of_nat (List.length data)
              + Z.of_nat (List.length rest)) m0 l in
  result r = (KG_ERROR_OK,
              mkMessage KG_ERROR_OK uid
                (mk (mkSizedBuffer (Some data) (Z.of_nat (List.length data))))) /\
  reads (log_of r) = reads l ++ addrs base 4 ++ addrs (base + 4) 4
                     ++ addrs (base + 8) sizeof_size_t
                     ++ addrs (base + 8 + sizeof_size_t) (Z.of_nat (List.length data)).
Proof.
  intros Hhook Hd Hfit Hh. dm_facts. cbv zeta.
  rewrite (Deserialize_ok_envelope _ m0 _) by (eassumption || lia).
  apply holds_field_after_envelope, holds_app_l in Hh.
  match goal with |- context [nonErrorDeserialize ?x1 ?x2 ?x3 ?x4 ?x5] =>
    destruct (Hhook x1 x2 x3 x4 x5) as [t [l0 [_ [Hreads Hrun]]]]
  end.
  rewrite Hrun.
  rewrite (read_from_buffer_ok mem (base + 8) _ t l0 data) by (assumption || lia).
  cbn [result log_of fst snd reads]. rewrite Hreads. cbn [reads].
  split; [reflexivity|]. now rewrite <- !app_assoc.
Qed.

Lemma VerifyRequest_decode (m0 : KeyguardMessage VerifyRequest.t)
  (handle pw rest : list byte) :
  (1 <= List.length handle)%nat -> (1 <= List.length pw)%nat ->
  base + 8 + 2 * sizeof_size_t + Z.of_nat (List.length handle)
    + Z.of_nat (List.length pw) + Z.of_nat (List.length rest) < size_modulus ->
  holds mem base (le32 KG_ERROR_OK ++ le32 uid
                  ++ (le_size (Z.of_nat (List.length handle)) ++ handle)
                  ++ (le_size (Z.of_nat (List.length pw)) ++ pw) ++ rest) ->
  let r := Deserialize mem base
             (base + 8 + 2 * sizeof_size_t + Z.of_nat (List.length handle)
              + Z.of_nat (List.length pw) + Z.of_nat (List.length rest)) m0 l in
  result r = (KG_ERROR_OK,
              mkMessage KG_ERROR_OK uid
                (VerifyRequest.mk
                   (mkSizedBuffer (Some handle) (Z.of_nat (List.length handle)))
                   (mkSizedBuffer (Some pw) (Z.of_nat (List.length pw))))) /\
  reads (log_of r) = reads l ++ addrs base 4 ++ addrs (base + 4) 4
                     ++ addrs (base + 8) sizeof_size_t
                     ++ addrs (base + 8 + sizeof_size_t) (Z.of_nat (List.length handle))
                     ++ addrs (base + 8 + sizeof_size_t + Z.of_nat (List.length handle))
                          sizeof_size_t
                     ++ addrs (base + 8 + 2 * sizeof_size_t
                               + Z.of_nat (List.length handle))
                          (Z.of_nat (List.length pw)).
Proof.
  intros Hd1 Hd2 Hfit Hh. dm_facts. cbv zeta.
  rewrite (Deserialize_ok_envelope _ m0 _) by (eassumption || lia).
  apply holds_field_after_envelope in Hh.
  pose proof (holds_app_l _ _ _ _ Hh) as Hh1.
  apply holds_app_r in Hh. apply holds_app_l in Hh.
  rewrite length_app, Nat2Z.inj_add, le_size_length in Hh.
  replace (base + 8 + (sizeof_size_t + Z.of_nat (List.length handle)))
    with (base + 8 + sizeof_size_t + Z.of_nat (List.length handle)) in Hh by lia.
  cbn [nonErrorDeserialize VerifyRequest_variant].
  rewrite VerifyRequest_hook_run. cbv zeta.
  rewrite (read_from_buffer_ok mem (base + 8) _ _ _ handle) by (assumption || lia).
  cbn [fst snd Z.eqb KG_ERROR_OK].
  rewrite (read_from_buffer_ok mem (base + 8 + sizeof_size_t
                                    + Z.of_nat (List.length handle)) _ _ _ pw)
    by (assumption || lia).
  cbn [result log_of fst snd reads].
  split; [reflexivity|]. rewrite <- !app_assoc.
  replace (base + 8 + sizeof_size_t + Z.of_nat (List.length handle) + sizeof_size_t)
    with (base + 8 + 2 * sizeof_size_t + Z.of_nat (List.length handle)) by lia.
  reflexivity.
Qed.

End DecodeSerialized.

(** * EnrollRequest on the wire *)

(** C5 at a failing input: the payload holds the three fields of an
    enrollment, [provided_password], [current_password_handle] and
    [current_password], each written by [append_to_buffer].  The
    [EnrollRequest] of these sources has [provided_password_] as its only
    buffer member: the decode returns OK with that one field, reads no
    byte of the two fields that follow, and serializing the decoded
    object gives back the first field only.  This holds for either width
    of [size_t]. *)
Theorem EnrollRequest_drops_current_password_fields (dm : DataModel) :
  let provided := mkSizedBuffer (Some [Byte.x70]) 1 in
  let handle := mkSizedBuffer (Some [Byte.x68]) 1 in
  let current := mkSizedBuffer (Some [Byte.x63]) 1 in
  let wire := le32 KG_ERROR_OK ++ le32 3857
              ++ append_to_buffer (append_to_buffer (append_to_buffer [] provided) handle)
                   current in
  let r := Deserialize (place 4096 wire) 4096 (4096 + Z.of_nat (List.length wire))
             (default_message (F := EnrollRequest.t) 0) empty_log in
  Z.of_nat (List.length wire) = 8 + 3 * (sizeof_size_t + 1) /\
  result r = (KG_ERROR_OK, fst (EnrollRequest.ctor 3857 provided)) /\
  reads (log_of r) = addrs 4096 (8 + sizeof_size_t + 1) /\
  Serialize (snd (result r)) = firstn (Z.to_nat (8 + sizeof_size_t + 1)) wire /\
  Serialize (snd (result r)) <> wire.
Proof.
  destruct dm; cbv zeta; (split; [reflexivity|]); (split; [reflexivity|]);
    (split; [reflexivity|]); (split; [reflexivity|]); vm_compute; discriminate.
Qed.

(** * Zero-length buffers and short ranges

    The four statements of this section evaluate the code on concrete
    inputs with a 32-bit [size_t], for which a length prefix has the four
    bytes the specification speaks of. *)

Section ZeroLengthAndShortRanges.
Local Existing Instance ILP32.

(** C2 at a failing input: the range holds a zero length prefix and one
    more byte, so four bytes are available for the prefix and the field
    ends inside the range without wrapping; [read_from_buffer] returns
    INVALID all the same and allocates nothing.  It does so too when the
    range holds the four prefix bytes only.  ([size_t] is 32 bits wide
    here, as the claim has it.) *)
Theorem read_from_buffer_rejects_zero_length :
  let mem := place 4096 (le32 0 ++ [Byte.x41]) in
  let r := result (read_from_buffer mem 4096 4101 zeroed_SizedBuffer empty_log) in
  peek32 mem 4096 = 0 /\ 4096 + 4 + 0 <= 4101 /\
  fst (fst r) = KG_ERROR_INVALID /\ buffer (snd r) = None /\
  fst (fst (result (read_from_buffer mem 4096 4100 zeroed_SizedBuffer empty_log)))
    = KG_ERROR_INVALID.
Proof.
  cbv zeta. repeat split. vm_compute. discriminate.
Qed.

(** C4 at the failing input: an empty buffer is encoded as four zero
    bytes and no payload, and decoding exactly those four bytes returns
    INVALID instead of an empty field. *)
Theorem empty_buffer_encoding_does_not_decode :
  let wire := append_to_buffer [] zeroed_SizedBuffer in
  let r := result (read_from_buffer (place 4096 wire) 4096 (4096 + 4)
                     zeroed_SizedBuffer empty_log) in
  wire = [Byte.x00; Byte.x00; Byte.x00; Byte.x00] /\
  serialized_buffer_size zeroed_SizedBuffer = 4 /\
  fst (fst r) = KG_ERROR_INVALID.
Proof.
  cbv zeta. repeat split.
Qed.

(** C3 at failing inputs: a message of each variant built from empty
    buffers serializes, and decoding the bytes [Serialize] wrote, over
    exactly [GetSerializedSize] bytes, returns INVALID. *)
Theorem roundtrip_fails_on_empty_buffers :
  let empty := mkSizedBuffer None 0 in
  let handle := mkSizedBuffer (Some [Byte.x68]) 1 in
  fst (round_trip 4096 0 (fst (EnrollRequest.ctor 3857 empty))) = KG_ERROR_INVALID /\
  fst (round_trip 4096 0 (fst (EnrollResponse.ctor 3857 empty))) = KG_ERROR_INVALID /\
  fst (round_trip 4096 0 (fst (VerifyResponse.ctor 3857 empty))) = KG_ERROR_INVALID /\
  fst (round_trip 4096 0 (fst (fst (VerifyRequest.ctor 3857 empty empty))))
    = KG_ERROR_INVALID /\
  fst (round_trip 4096 0 (fst (fst (VerifyRequest.ctor 3857 handle empty))))
    = KG_ERROR_INVALID.
Proof.
  cbv zeta. repeat split.
Qed.

(** C1 at a failing input: the range holds the four bytes of an OK code
    and one more byte; [Deserialize] reads the four bytes of the user id
    at offsets 4 to 7, three of which lie outside the range. *)
Theorem Deserialize_reads_past_short_range :
  let mem := place 4096 (le32 KG_ERROR_OK ++ [Byte.x09]) in
  let r := Deserialize mem 4096 4101 (default_message (F := EnrollRequest.t) 0) empty_log in
  reads (log_of r) = [4096; 4097; 4098; 4099; 4100; 4101; 4102; 4103] /\
  (exists a, In a (reads (log_of r)) /\ ~ in_range 4096 4101 a).
Proof.
  cbv zeta. split; [reflexivity|].
  exists 4103. split.
  - vm_compute. tauto.
  - unfold in_range. lia.
Qed.

End ZeroLengthAndShortRanges.

(** * What the code does guarantee *)

Lemma GetSerializedSize_one_field {dm : DataModel} (n : Z) :
  0 <= n -> 12 + n < size_modulus ->
  wrap_size (2 * sizeof_uint32 + wrap_size (sizeof_uint32 + n)) = 12 + n.
Proof.
  intros Hn Hfit. unfold sizeof_uint32.
  rewrite (wrap_size_small (4 + n)) by lia. rewrite wrap_size_small by lia. lia.
Qed.

Lemma GetSerializedSize_two_fields {dm : DataModel} (n k : Z) :
  0 <= n -> 0 <= k -> 16 + n + k < size_modulus ->
  wrap_size (2 * sizeof_uint32
             + wrap_size (wrap_size (sizeof_uint32 + n) + wrap_size (sizeof_uint32 + k)))
  = 16 + n + k.
Proof.
  intros Hn Hk Hfit. unfold sizeof_uint32. rewrite !(wrap_size_small (4 + _)) by lia.
  rewrite (wrap_size_small (_ + _ + _)) by lia. rewrite wrap_size_small by lia. lia.
Qed.

(** With a 32-bit [size_t], every message built by a constructor from
    non-empty buffers that own exactly [length] bytes survives the round
    trip over [GetSerializedSize] bytes. *)
Lemma round_trip_of_nonempty_buffers {dm : DataModel} (base : ptr) (uid uid0 : uint32)
  (a b : list byte) :
  sizeof_size_t = sizeof_uint32 ->
  0 <= base -> 0 <= uid < 2 ^ 32 ->
  (1 <= List.length a)%nat -> (1 <= List.length b)%nat ->
  base + 16 + Z.of_nat (List.length a) + Z.of_nat (List.length b) < size_modulus ->
  let src_a := mkSizedBuffer (Some a) (Z.of_nat (List.length a)) in
  let src_b := mkSizedBuffer (Some b) (Z.of_nat (List.length b)) in
  (let m := fst (EnrollRequest.ctor uid src_a) in round_trip base uid0 m = (KG_ERROR_OK, m)) /\
  (let m := fst (EnrollResponse.ctor uid src_a) in round_trip base uid0 m = (KG_ERROR_OK, m)) /\
  (let m := fst (VerifyResponse.ctor uid src_a) in round_trip base uid0 m = (KG_ERROR_OK, m)) /\
  (let m := fst (fst (VerifyRequest.ctor uid src_a src_b)) in
   round_trip base uid0 m = (KG_ERROR_OK, m)).
Proof.
  intros Hw Hb Hu Ha Hlb Hfit. unfold sizeof_uint32 in Hw. cbv zeta.
  unfold round_trip.
  cbn [EnrollRequest.ctor EnrollResponse.ctor VerifyResponse.ctor VerifyRequest.ctor
       move_from fst snd buffer length].
  rewrite EnrollRequest_wire, EnrollResponse_wire, VerifyResponse_wire, VerifyRequest_wire.
  unfold GetSerializedSize.
  cbn [error_ fields Z.eqb KG_ERROR_OK nonErrorSerializedSize
       EnrollRequest_variant EnrollResponse_variant VerifyResponse_variant
       VerifyRequest_variant].
  unfold EnrollRequest.nonErrorSerializedSize, EnrollResponse.nonErrorSerializedSize,
    VerifyResponse.nonErrorSerializedSize, VerifyRequest.nonErrorSerializedSize,
    serialized_buffer_size.
  cbn [EnrollRequest.provided_password_ EnrollResponse.enrolled_password_handle_
       VerifyResponse.verification_token_ VerifyRequest.password_handle_
       VerifyRequest.provided_password_ length].
  rewrite GetSerializedSize_one_field, GetSerializedSize_two_fields by lia.
  rewrite !ptr_add_small by lia.
  replace (base + (12 + Z.of_nat (List.length a)))
    with (base + 8 + sizeof_size_t + Z.of_nat (List.length a)
          + Z.of_nat (List.length (@nil byte))) by (cbn [List.length]; lia).
  replace (base + (16 + Z.of_nat (List.length a) + Z.of_nat (List.length b)))
    with (base + 8 + 2 * sizeof_size_t + Z.of_nat (List.length a)
          + Z.of_nat (List.length b) + Z.of_nat (List.length (@nil byte)))
    by (cbn [List.length]; lia).
  set (mem1 := place base _). set (mem2 := place base _).
  assert (Hh1 : holds mem1 base
            (le32 KG_ERROR_OK ++ le32 uid
             ++ (le_size (Z.of_nat (List.length a)) ++ a) ++ [])).
  { rewrite app_nil_r. apply place_holds. }
  assert (Hh2 : holds mem2 base
            (le32 KG_ERROR_OK ++ le32 uid ++ (le_size (Z.of_nat (List.length a)) ++ a)
             ++ (le_size (Z.of_nat (List.length b)) ++ b) ++ [])).
  { rewrite app_nil_r. apply place_holds. }
  assert (Hfit1 : base + 8 + sizeof_size_t + Z.of_nat (List.length a)
                  + Z.of_nat (List.length (@nil byte)) < size_modulus)
    by (cbn [List.length]; lia).
  assert (Hfit2 : base + 8 + 2 * sizeof_size_t + Z.of_nat (List.length a)
                  + Z.of_nat (List.length b) + Z.of_nat (List.length (@nil byte))
                  < size_modulus)
    by (cbn [List.length]; lia).
  split; [|split; [|split]].
  - apply (single_field_decode mem1 base uid empty_log Hb Hu EnrollRequest.mk
             (default_message uid0) a [] EnrollRequest_single_field Ha Hfit1 Hh1).
  - apply (single_field_decode mem1 base uid empty_log Hb Hu EnrollResponse.mk
             (default_message uid0) a [] EnrollResponse_single_field Ha Hfit1 Hh1).
  - apply (single_field_decode mem1 base uid empty_log Hb Hu VerifyResponse.mk
             (default_message uid0) a [] VerifyResponse_single_field Ha Hfit1 Hh1).
  - apply (VerifyRequest_decode mem2 base uid empty_log Hb Hu
             (default_message uid0) a b [] Ha Hlb Hfit2 Hh2).
Qed.

(** * Further properties of the codec *)

(** ** read_from_buffer *)

(** X1: a non-empty field that lies in the range is decoded.  The length
    prefix has the [sizeof(size_t)] bytes that [read_from_buffer] copies
    into [target->length].  On a memory holding those bytes and the
    [n >= 1] payload bytes at the cursor, with the field ending at or
    before [end_], [read_from_buffer] returns OK, leaves the cursor right
    after the payload, gives the target a block with exactly the payload
    bytes and length [n], reads those [sizeof(size_t) + n] bytes and no
    other, and releases the block the target held before, if any, as it
    is. *)
Theorem read_from_buffer_decodes_field {dm : DataModel} (mem : Memory) (cursor end_ : ptr)
  (target : SizedBuffer) (l : Log) (data : list byte) :
  0 <= cursor -> end_ < size_modulus ->
  (1 <= List.length data)%nat ->
  cursor + sizeof_size_t + Z.of_nat (List.length data) <= end_ ->
  holds mem cursor (le_size (Z.of_nat (List.length data)) ++ data) ->
  let r := read_from_buffer mem cursor end_ target l in
  result r = (KG_ERROR_OK, cursor + sizeof_size_t + Z.of_nat (List.length data),
              mkSizedBuffer (Some data) (Z.of_nat (List.length data))) /\
  reads (log_of r)
    = reads l ++ addrs cursor (sizeof_size_t + Z.of_nat (List.length data)) /\
  released (log_of r) = released l ++ owned_blocks (buffer target).
Proof.
  intros Hc He Hd Hfit Hh. dm_facts. cbv zeta.
  rewrite (read_from_buffer_ok mem cursor end_ target l data) by assumption.
  cbn [result log_of fst snd reads released]. repeat split.
  now rewrite addrs_app by lia.
Qed.

(** X2: for a cursor at least [sizeof(size_t)] bytes below the top of
    the address space, [read_from_buffer] returns INVALID exactly when at
    most [sizeof(size_t)] bytes remain before [end_], or the length
    prefix is zero, or the field would end beyond [end_] (which covers a
    length that wraps the pointer); in every other case it returns OK. *)
Theorem read_from_buffer_fails_exactly_when {dm : DataModel} (mem : Memory)
  (cursor end_ : ptr) (target : SizedBuffer) (l : Log) :
  0 <= cursor -> cursor + sizeof_size_t < size_modulus -> 0 <= end_ < size_modulus ->
  let e := fst (fst (result (read_from_buffer mem cursor end_ target l))) in
  let len := peek_size mem cursor in
  (e = KG_ERROR_INVALID <->
     (end_ - cursor <= sizeof_size_t \/ len = 0 \/ end_ < cursor + sizeof_size_t + len)) /\
  (e = KG_ERROR_OK <->
     (sizeof_size_t < end_ - cursor /\ 1 <= len /\ cursor + sizeof_size_t + len <= end_)).
Proof.
  intros Hc Htop He. cbv zeta.
  destruct (read_from_buffer_cases mem cursor end_ target l Hc Htop He)
    as [[H1 Hr] | [[H1 [H2 Hr]] | [H1 [H2 [H3 Hr]]]]];
    rewrite Hr; cbn [result fst]; unfold KG_ERROR_INVALID, KG_ERROR_OK;
    (split; split; intros; try lia; try discriminate).
Qed.

(** X3: for a cursor at least [sizeof(size_t)] bytes below the top of
    the address space, every byte [read_from_buffer] reads lies in
    [[cursor, end_)], whatever the memory holds; when it returns OK the
    cursor has moved forward by the prefix and at least one byte, so by
    at least five bytes, and not beyond [end_], and when it returns
    INVALID nothing is released and the target keeps its block. *)
Theorem read_from_buffer_stays_in_range {dm : DataModel} (mem : Memory)
  (cursor end_ : ptr) (target : SizedBuffer) (l : Log) :
  0 <= cursor -> cursor + sizeof_size_t < size_modulus -> 0 <= end_ < size_modulus ->
  let r := read_from_buffer mem cursor end_ target l in
  reads_within cursor end_ l (log_of r) /\
  (fst (fst (result r)) = KG_ERROR_OK ->
     cursor + 5 <= cursor + sizeof_size_t + 1 <= snd (fst (result r)) /\
     snd (fst (result r)) <= end_) /\
  (fst (fst (result r)) = KG_ERROR_INVALID ->
     released (log_of r) = released l /\ buffer (snd (result r)) = buffer target).
Proof.
  intros Hc Htop He. dm_facts. cbv zeta.
  split; [apply read_from_buffer_safe; lia|].
  destruct (read_from_buffer_cases mem cursor end_ target l Hc Htop He)
    as [[H1 Hr] | [[H1 [H2 Hr]] | [H1 [H2 [H3 Hr]]]]];
    rewrite Hr; cbn [result log_of fst snd released buffer];
    (split; intros Hres; try discriminate; try lia; try (split; reflexivity)).
Qed.

(** X4: whatever the memory holds, when [read_from_buffer] returns OK
    the target is consistent with the input: its length is the [size_t]
    stored in the [sizeof(size_t)] bytes at the cursor, which is at least
    1 and at most the bytes left after the prefix, and its block holds
    exactly that many bytes, the ones that follow the prefix in the
    input. *)
Theorem read_from_buffer_result_matches_input {dm : DataModel} (mem : Memory)
  (cursor end_ : ptr) (target : SizedBuffer) (l : Log) :
  0 <= cursor -> cursor + sizeof_size_t < size_modulus -> 0 <= end_ < size_modulus ->
  let r := result (read_from_buffer mem cursor end_ target l) in
  let len := peek_size mem cursor in
  fst (fst r) = KG_ERROR_OK ->
  1 <= len <= end_ - cursor - sizeof_size_t /\
  snd (fst r) = cursor + sizeof_size_t + len /\
  snd r = mkSizedBuffer (Some (bytes_at mem (cursor + sizeof_size_t) len)) len /\
  Z.of_nat (List.length (bytes_at mem (cursor + sizeof_size_t) len)) = len.
Proof.
  intros Hc Htop He. cbv zeta.
  destruct (read_from_buffer_cases mem cursor end_ target l Hc Htop He)
    as [[H1 Hr] | [[H1 [H2 Hr]] | [H1 [H2 [H3 Hr]]]]];
    rewrite Hr; cbn [result fst snd]; intros Hres; try discriminate.
  repeat split; try lia. apply bytes_at_length. lia.
Qed.

(** ** The four statements on examples, with a 32-bit and with a 64-bit
    [size_t] *)

Section ReadFromBufferExamples32.
Local Existing Instance ILP32.

Lemma read_from_buffer_fails_exactly_when_witness :
  let mem := place 4096 (le32 4294967295 ++ [Byte.x61]) in
  let e := fst (fst (result (read_from_buffer mem 4096 4101 zeroed_SizedBuffer empty_log))) in
  let len := peek32 mem 4096 in
  (e = KG_ERROR_INVALID <-> (4101 - 4096 <= 4 \/ len = 0 \/ 4101 < 4096 + 4 + len)) /\
  (e = KG_ERROR_OK <-> (4 < 4101 - 4096 /\ 1 <= len /\ 4096 + 4 + len <= 4101)).
Proof.
  intros mem.
  refine (read_from_buffer_fails_exactly_when mem 4096 4101 zeroed_SizedBuffer empty_log
            _ _ _).
  - lia.
  - reflexivity.
  - by_evaluation.
Defined.

Lemma read_from_buffer_stays_in_range_witness :
  let mem := place 4096 (le32 200 ++ [Byte.x61; Byte.x62]) in
  let r := read_from_buffer mem 4096 4102 zeroed_SizedBuffer empty_log in
  reads_within 4096 4102 empty_log (log_of r) /\
  (fst (fst (result r)) = KG_ERROR_OK ->
     4096 + 5 <= 4096 + 4 + 1 <= snd (fst (result r)) /\ snd (fst (result r)) <= 4102) /\
  (fst (fst (result r)) = KG_ERROR_INVALID ->
     released (log_of r) = released empty_log /\
     buffer (snd (result r)) = buffer zeroed_SizedBuffer).
Proof.
  intros mem.
  refine (read_from_buffer_stays_in_range mem 4096 4102 zeroed_SizedBuffer empty_log
            _ _ _).
  - lia.
  - reflexivity.
  - by_evaluation.
Defined.

End ReadFromBufferExamples32.

Section ReadFromBufferExamples64.
Local Existing Instance LP64.

Lemma read_from_buffer_decodes_field_witness :
  let mem := place 4096 (le_size 2 ++ [Byte.x61; Byte.x62] ++ [Byte.x7a]) in
  let target := mkSizedBuffer (Some [Byte.x6f]) 1 in
  let r := read_from_buffer mem 4096 4107 target empty_log in
  result r = (KG_ERROR_OK, 4096 + 8 + 2, mkSizedBuffer (Some [Byte.x61; Byte.x62]) 2) /\
  reads (log_of r) = [] ++ addrs 4096 (8 + 2) /\
  released (log_of r) = [] ++ [[Byte.x6f]].
Proof.
  intros mem target.
  refine (read_from_buffer_decodes_field mem 4096 4107 target empty_log
            [Byte.x61; Byte.x62] _ _ _ _ _).
  - lia.
  - reflexivity.
  - simpl. lia.
  - by_evaluation.
  - apply (holds_app_l mem 4096 (le_size 2 ++ [Byte.x61; Byte.x62]) [Byte.x7a]).
    rewrite <- app_assoc. apply place_holds.
Defined.

Lemma read_from_buffer_result_matches_input_witness :
  let mem := place 4096 (le_size 2 ++ [Byte.x61; Byte.x62; Byte.x63]) in
  let r := result (read_from_buffer mem 4096 4107 zeroed_SizedBuffer empty_log) in
  let len := peek_size mem 4096 in
  1 <= len <= 4107 - 4096 - 8 /\
  snd (fst r) = 4096 + 8 + len /\
  snd r = mkSizedBuffer (Some (bytes_at mem (4096 + 8) len)) len /\
  Z.of_nat (List.length (bytes_at mem (4096 + 8) len)) = len.
Proof.
  intros mem.
  refine (read_from_buffer_result_matches_input mem 4096 4107 zeroed_SizedBuffer
            empty_log _ _ _ _).
  - lia.
  - reflexivity.
  - by_evaluation.
  - reflexivity.
Defined.

End ReadFromBufferExamples64.

(** ** Serialize, then Deserialize *)

(** X5: a message of any of the four variants whose buffers are not
    empty and own exactly [length] bytes survives the trip over the wire,
    also when further bytes follow it in the range: decoding the bytes
    [Serialize] wrote (with the [sizeof(size_t)]-byte length prefixes of
    [append_to_buffer], so over a range that ends where the written bytes
    and the ones that follow end) into a default-constructed object
    returns OK and yields the message itself, and no byte after the
    message is read.  This holds for either width of [size_t]. *)
Theorem decode_of_serialized_message {dm : DataModel} (base : ptr) (uid : uint32)
  (a b rest : list byte) :
  0 <= base -> 0 <= uid < 2 ^ 32 ->
  (1 <= List.length a)%nat -> (1 <= List.length b)%nat ->
  base + 8 + 2 * sizeof_size_t + Z.of_nat (List.length a) + Z.of_nat (List.length b)
    + Z.of_nat (List.length rest) < size_modulus ->
  let A := mkSizedBuffer (Some a) (Z.of_nat (List.length a)) in
  let B := mkSizedBuffer (Some b) (Z.of_nat (List.length b)) in
  decodes_back base rest (mkMessage KG_ERROR_OK uid (EnrollRequest.mk A)) /\
  decodes_back base rest (mkMessage KG_ERROR_OK uid (EnrollResponse.mk A)) /\
  decodes_back base rest (mkMessage KG_ERROR_OK uid (VerifyResponse.mk A)) /\
  decodes_back base rest (mkMessage KG_ERROR_OK uid (VerifyRequest.mk A B)).
Proof.
  intros Hb Hu Ha Hlb Hfit. dm_facts. cbv zeta.
  assert (Hfit1 : base + 8 + sizeof_size_t + Z.of_nat (List.length a)
                  + Z.of_nat (List.length rest) < size_modulus) by lia.
  assert (L1 : forall t : list byte,
             base + Z.of_nat (List.length ((le32 KG_ERROR_OK ++ le32 uid
                     ++ le_size (Z.of_nat (List.length a)) ++ a) ++ t))
             = base + 8 + sizeof_size_t + Z.of_nat (List.length a)
               + Z.of_nat (List.length t)).
  { intros t. rewrite !length_app, !Nat2Z.inj_add, !le32_length, le_size_length. lia. }
  assert (L2 : forall t : list byte,
             base + Z.of_nat (List.length ((le32 KG_ERROR_OK ++ le32 uid
                     ++ (le_size (Z.of_nat (List.length a)) ++ a)
                     ++ le_size (Z.of_nat (List.length b)) ++ b) ++ t))
             = base + 8 + 2 * sizeof_size_t + Z.of_nat (List.length a)
               + Z.of_nat (List.length b) + Z.of_nat (List.length t)).
  { intros t. rewrite !length_app, !Nat2Z.inj_add, !le32_length, !le_size_length. lia. }
  assert (N1 : base + Z.of_nat (List.length (le32 KG_ERROR_OK ++ le32 uid
                     ++ le_size (Z.of_nat (List.length a)) ++ a))
               = base + 8 + sizeof_size_t + Z.of_nat (List.length a)).
  { rewrite !length_app, !Nat2Z.inj_add, !le32_length, le_size_length. lia. }
  assert (N2 : base + Z.of_nat (List.length (le32 KG_ERROR_OK ++ le32 uid
                     ++ (le_size (Z.of_nat (List.length a)) ++ a)
                     ++ le_size (Z.of_nat (List.length b)) ++ b))
               = base + 8 + 2 * sizeof_size_t + Z.of_nat (List.length a)
                 + Z.of_nat (List.length b)).
  { rewrite !length_app, !Nat2Z.inj_add, !le32_length, !le_size_length. lia. }
  assert (R1 : Forall (in_range base (base + 8 + sizeof_size_t + Z.of_nat (List.length a)))
                 (addrs base 4 ++ addrs (base + 4) 4 ++ addrs (base + 8) sizeof_size_t
                  ++ addrs (base + 8 + sizeof_size_t) (Z.of_nat (List.length a)))).
  { repeat (apply Forall_app; split); apply addrs_within; lia. }
  assert (R2 : Forall (in_range base (base + 8 + 2 * sizeof_size_t
                                      + Z.of_nat (List.length a)
                                      + Z.of_nat (List.length b)))
                 (addrs base 4 ++ addrs (base + 4) 4 ++ addrs (base + 8) sizeof_size_t
                  ++ addrs (base + 8 + sizeof_size_t) (Z.of_nat (List.length a))
                  ++ addrs (base + 8 + sizeof_size_t + Z.of_nat (List.length a))
                       sizeof_size_t
                  ++ addrs (base + 8 + 2 * sizeof_size_t + Z.of_nat (List.length a))
                       (Z.of_nat (List.length b)))).
  { repeat (apply Forall_app; split); apply addrs_within; lia. }
  split; [|split; [|split]]; intros mem uid0 l Hh; cbv zeta;
    rewrite ?EnrollRequest_wire, ?EnrollResponse_wire, ?VerifyResponse_wire,
      ?VerifyRequest_wire in Hh |- *.
  - rewrite L1, N1.
    destruct (single_field_decode mem base uid l Hb Hu EnrollRequest.mk
                (default_message uid0) a rest EnrollRequest_single_field Ha Hfit1)
      as [Hres Hreads].
    { rewrite <- !app_assoc in Hh. rewrite <- ?app_assoc. exact Hh. }
    split; [exact Hres|]. exists (addrs base 4 ++ addrs (base + 4) 4
      ++ addrs (base + 8) sizeof_size_t
      ++ addrs (base + 8 + sizeof_size_t) (Z.of_nat (List.length a))).
    split; [exact Hreads|exact R1].
  - rewrite L1, N1.
    destruct (single_field_decode mem base uid l Hb Hu EnrollResponse.mk
                (default_message uid0) a rest EnrollResponse_single_field Ha Hfit1)
      as [Hres Hreads].
    { rewrite <- !app_assoc in Hh. rewrite <- ?app_assoc. exact Hh. }
    split; [exact Hres|]. exists (addrs base 4 ++ addrs (base + 4) 4
      ++ addrs (base + 8) sizeof_size_t
      ++ addrs (base + 8 + sizeof_size_t) (Z.of_nat (List.length a))).
    split; [exact Hreads|exact R1].
  - rewrite L1, N1.
    destruct (single_field_decode mem base uid l Hb Hu VerifyResponse.mk
                (default_message uid0) a rest VerifyResponse_single_field Ha Hfit1)
      as [Hres Hreads].
    { rewrite <- !app_assoc in Hh. rewrite <- ?app_assoc. exact Hh. }
    split; [exact Hres|]. exists (addrs base 4 ++ addrs (base + 4) 4
      ++ addrs (base + 8) sizeof_size_t
      ++ addrs (base + 8 + sizeof_size_t) (Z.of_nat (List.length a))).
    split; [exact Hreads|exact R1].
  - rewrite L2, N2.
    destruct (VerifyRequest_decode mem base uid l Hb Hu
                (default_message uid0) a b rest Ha Hlb Hfit)
      as [Hres Hreads].
    { rewrite <- !app_assoc in Hh. rewrite <- ?app_assoc. exact Hh. }
    split; [exact Hres|]. eexists. split; [exact Hreads|exact R2].
Qed.

(** X6: but for the one shape of input where the read of the user id
    runs past the end (an OK code followed by one to three bytes),
    [Deserialize] of every variant, into any object and on any memory
    content, reads only bytes inside [[payload, end_)], for a range that
    ends at least [sizeof(size_t)] bytes below the top of the address
    space. *)
Theorem Deserialize_reads_inside_range {dm : DataModel} (mem : Memory)
  (payload end_ : ptr) (l : Log)
  (e : keyguard_error_t) (uid : uint32) (a b : SizedBuffer) :
  0 <= payload <= end_ -> end_ + sizeof_size_t < size_modulus ->
  ~ (peek32 mem payload = KG_ERROR_OK /\ 4 < end_ - payload < 8) ->
  reads_within payload end_ l
    (log_of (Deserialize mem payload end_ (mkMessage e uid (EnrollRequest.mk a)) l)) /\
  reads_within payload end_ l
    (log_of (Deserialize mem payload end_ (mkMessage e uid (EnrollResponse.mk a)) l)) /\
  reads_within payload end_ l
    (log_of (Deserialize mem payload end_ (mkMessage e uid (VerifyResponse.mk a)) l)) /\
  reads_within payload end_ l
    (log_of (Deserialize mem payload end_ (mkMessage e uid (VerifyRequest.mk a b)) l)).
Proof.
  intros Hp Htop Hgap.
  destruct Deserialize_reads_in_range_all as [HVq [HVr [HEq HEr]]].
  split; [|split; [|split]].
  - now apply HEq.
  - now apply HEr.
  - now apply HVr.
  - now apply HVq.
Qed.


(** ** What an OK result says about the input *)

Lemma single_field_sound {dm : DataModel} {F : Type} `{MessageVariant F}
  (mk : SizedBuffer -> F) (mem : Memory) (payload end_ : ptr) (l : Log)
  (m0 : KeyguardMessage F) :
  single_field_hook mk ->
  0 <= payload <= end_ -> end_ + 4 + sizeof_size_t < size_modulus ->
  let n := peek_size mem (payload + 8) in
  let r := result (Deserialize mem payload end_ m0 l) in
  fst r = KG_ERROR_OK ->
  (peek32 mem payload = KG_ERROR_OK /\ 1 <= n /\ payload + 8 + sizeof_size_t + n <= end_) /\
  snd r = mkMessage KG_ERROR_OK (peek32 mem (payload + 4))
            (mk (mkSizedBuffer (Some (bytes_at mem (payload + 8 + sizeof_size_t) n)) n)).
Proof.
  intros Hhook Hp Htop. dm_facts. cbv zeta.
  destruct (Deserialize_cases (dm := dm) mem payload end_ m0 l Hp ltac:(lia))
    as [[? Hr] | [[? [? Hr]] | [[? [? Hr]] | [? [? Hr]]]]];
    rewrite Hr; cbn [result fst snd]; intros Hres;
    try discriminate; try contradiction.
  revert Hres.
  match goal with |- context [nonErrorDeserialize ?x1 ?x2 ?x3 ?x4 ?x5] =>
    destruct (Hhook x1 x2 x3 x4 x5) as [t [l0 [_ [_ Hrun]]]]
  end.
  rewrite Hrun.
  destruct (read_from_buffer_cases (dm := dm) mem (payload + 8) end_ t l0
              ltac:(lia) ltac:(lia) ltac:(lia))
    as [[? Hrb] | [[? [? Hrb]] | [? [? [? Hrb]]]]];
    rewrite Hrb; cbn [result fst snd]; intros Hres; try discriminate.
  repeat split; (assumption || lia || idtac).
Qed.

Lemma VerifyRequest_sound {dm : DataModel} (mem : Memory) (payload end_ : ptr) (l : Log)
  (m0 : KeyguardMessage VerifyRequest.t) :
  0 <= payload <= end_ -> end_ + 4 + sizeof_size_t < size_modulus ->
  let r := result (Deserialize mem payload end_ m0 l) in
  let n1 := peek_size mem (payload + 8) in
  let n2 := peek_size mem (payload + 8 + sizeof_size_t + n1) in
  fst r = KG_ERROR_OK ->
  peek32 mem payload = KG_ERROR_OK /\
  1 <= n1 /\ 1 <= n2 /\ payload + 8 + 2 * sizeof_size_t + n1 + n2 <= end_ /\
  snd r = mkMessage KG_ERROR_OK (peek32 mem (payload + 4))
            (VerifyRequest.mk
               (mkSizedBuffer (Some (bytes_at mem (payload + 8 + sizeof_size_t) n1)) n1)
               (mkSizedBuffer
                  (Some (bytes_at mem (payload + 8 + 2 * sizeof_size_t + n1) n2)) n2)).
Proof.
  intros Hp Htop. dm_facts. cbv zeta.
  destruct (Deserialize_cases (dm := dm) mem payload end_ m0 l Hp ltac:(lia))
    as [[? Hr] | [[? [? Hr]] | [[? [? Hr]] | [? [? Hr]]]]];
    rewrite Hr; cbn [result fst snd]; intros Hres;
    try discriminate; try contradiction.
  revert Hres. cbn [nonErrorDeserialize VerifyRequest_variant].
  rewrite VerifyRequest_hook_run. cbv zeta.
  match goal with |- context [read_from_buffer ?a ?b ?c ?d ?e] =>
    destruct (read_from_buffer_cases (dm := dm) a b c d e
                ltac:(lia) ltac:(lia) ltac:(lia))
      as [[? Hrb] | [[? [? Hrb]] | [? [? [? Hrb]]]]];
    rewrite Hrb; cbn [result fst snd Z.eqb KG_ERROR_OK KG_ERROR_INVALID];
    try (intros Hres; discriminate)
  end.
  match goal with |- context [read_from_buffer ?a ?b ?c ?d ?e] =>
    destruct (read_from_buffer_cases (dm := dm) a b c d e
                ltac:(lia) ltac:(lia) ltac:(lia))
      as [[? Hrb2] | [[? [? Hrb2]] | [? [? [? Hrb2]]]]];
    rewrite Hrb2; cbn [result fst snd]; intros Hres; try discriminate
  end.
  replace (payload + 8 + sizeof_size_t + peek_size mem (payload + 8) + sizeof_size_t)
    with (payload + 8 + 2 * sizeof_size_t + peek_size mem (payload + 8)) by lia.
  repeat split; (assumption || lia).
Qed.

(** X8: when [Deserialize] of a single-field variant returns OK, the
    object says what the input holds: the first four bytes are the OK
    code, the user id is the 32-bit value at offset 4, the length of the
    field is the [size_t] value [n] stored in the [sizeof(size_t)] bytes
    at offset 8, with [1 <= n] and the [8 + sizeof(size_t) + n] bytes
    inside the range, and the block of the field holds the [n] bytes
    that follow the length.  In particular no range shorter than
    [8 + sizeof(size_t) + 1] bytes decodes to OK. *)
Theorem single_field_decode_matches_input {dm : DataModel} (mem : Memory)
  (payload end_ : ptr) (l : Log)
  (m1 : KeyguardMessage EnrollRequest.t) (m2 : KeyguardMessage EnrollResponse.t)
  (m3 : KeyguardMessage VerifyResponse.t) :
  0 <= payload <= end_ -> end_ + 4 + sizeof_size_t < size_modulus ->
  let n := peek_size mem (payload + 8) in
  let uid := peek32 mem (payload + 4) in
  let field := mkSizedBuffer (Some (bytes_at mem (payload + 8 + sizeof_size_t) n)) n in
  let fits := peek32 mem payload = KG_ERROR_OK /\ 1 <= n /\
              payload + 8 + sizeof_size_t + n <= end_ in
  (let r := result (Deserialize mem payload end_ m1 l) in
   fst r = KG_ERROR_OK ->
   fits /\ snd r = mkMessage KG_ERROR_OK uid (EnrollRequest.mk field)) /\
  (let r := result (Deserialize mem payload end_ m2 l) in
   fst r = KG_ERROR_OK ->
   fits /\ snd r = mkMessage KG_ERROR_OK uid (EnrollResponse.mk field)) /\
  (let r := result (Deserialize mem payload end_ m3 l) in
   fst r = KG_ERROR_OK ->
   fits /\ snd r = mkMessage KG_ERROR_OK uid (VerifyResponse.mk field)).
Proof.
  intros Hp Htop. cbv zeta. split; [|split].
  - exact (single_field_sound EnrollRequest.mk mem payload end_ l m1
             EnrollRequest_single_field Hp Htop).
  - exact (single_field_sound EnrollResponse.mk mem payload end_ l m2
             EnrollResponse_single_field Hp Htop).
  - exact (single_field_sound VerifyResponse.mk mem payload end_ l m3
             VerifyResponse_single_field Hp Htop).
Qed.

(** X9: when [Deserialize] of a [VerifyRequest] returns OK, both fields
    are what the input holds: the handle has the length [n1] stored in
    the [sizeof(size_t)] bytes at offset 8 and the [n1] bytes that follow
    them, the password the length [n2] stored right after the handle and
    the [n2] bytes that follow it, both lengths are at least 1 and the
    [8 + 2 * sizeof(size_t) + n1 + n2] bytes lie inside the range. *)
Theorem VerifyRequest_decode_matches_input {dm : DataModel} (mem : Memory)
  (payload end_ : ptr) (l : Log) (m0 : KeyguardMessage VerifyRequest.t) :
  0 <= payload <= end_ -> end_ + 4 + sizeof_size_t < size_modulus ->
  let r := result (Deserialize mem payload end_ m0 l) in
  let n1 := peek_size mem (payload + 8) in
  let n2 := peek_size mem (payload + 8 + sizeof_size_t + n1) in
  fst r = KG_ERROR_OK ->
  peek32 mem payload = KG_ERROR_OK /\
  1 <= n1 /\ 1 <= n2 /\ payload + 8 + 2 * sizeof_size_t + n1 + n2 <= end_ /\
  snd r = mkMessage KG_ERROR_OK (peek32 mem (payload + 4))
            (VerifyRequest.mk
               (mkSizedBuffer (Some (bytes_at mem (payload + 8 + sizeof_size_t) n1)) n1)
               (mkSizedBuffer
                  (Some (bytes_at mem (payload + 8 + 2 * sizeof_size_t + n1) n2)) n2)).
Proof.
  intros Hp Htop. cbv zeta. intros Hres.
  destruct (VerifyRequest_sound mem payload end_ l m0 Hp Htop Hres)
    as [H1 [H2 [H3 [H4 H5]]]].
  repeat split; assumption.
Qed.

(** ** Encoding what was decoded *)




(** ** Truncated messages *)

Lemma holds_firstn_prefix (mem : Memory) (base : ptr) (k : nat) (p q : list byte) :
  holds mem base (firstn k (p ++ q)) -> (List.length p <= k)%nat -> holds mem base p.
Proof.
  intros Hh Hk i Hi.
  rewrite Hh by (rewrite length_firstn, length_app; lia).
  rewrite nth_firstn. destruct (Nat.ltb_spec i k); [|lia].
  now apply app_nth1.
Qed.

Lemma holds_prefix_at (mem : Memory) (base : ptr) (k : nat) (p x q : list byte) :
  holds mem base (firstn k (p ++ x ++ q)) ->
  (List.length p + List.length x <= k)%nat ->
  holds mem (base + Z.of_nat (List.length p)) x.
Proof.
  intros Hh Hk. apply holds_app_r.
  apply (holds_firstn_prefix mem base k (p ++ x) q).
  - now rewrite <- app_assoc.
  - rewrite length_app. lia.
Qed.

Section Truncation.
Context {dm : DataModel}.
Variables (mem : Memory) (base : ptr) (uid : uint32) (k : nat).
Hypothesis Hbase : 0 <= base.

Lemma truncated_code (rest : list byte) :
  holds mem base (firstn k (le32 KG_ERROR_OK ++ rest)) -> (4 <= k)%nat ->
  base + 4 <= size_modulus ->
  peek32 mem base = KG_ERROR_OK.
Proof.
  intros Hh Hk Htop. apply peek32_le32; try lia; [now cbv|].
  apply (holds_firstn_prefix mem base k _ rest Hh). rewrite le32_length. exact Hk.
Qed.

Lemma truncated_first_length (n : Z) (rest : list byte) :
  holds mem base (firstn k (le32 KG_ERROR_OK ++ le32 uid ++ le_size n ++ rest)) ->
  8 + sizeof_size_t <= Z.of_nat k -> base + 8 + sizeof_size_t <= size_modulus ->
  0 <= n < size_modulus ->
  peek_size mem (base + 8) = n.
Proof.
  intros Hh Hk Htop Hn. dm_facts. apply peek_size_le_size; try lia.
  replace (base + 8) with (base + Z.of_nat (List.length (le32 KG_ERROR_OK ++ le32 uid)))
    by (rewrite length_app, !le32_length; lia).
  apply (holds_prefix_at mem base k _ _ rest).
  - now rewrite <- app_assoc.
  - pose proof (le_size_length n). rewrite length_app, !le32_length. lia.
Qed.

Lemma truncated_second_length (a : list byte) (n : Z) (rest : list byte) :
  holds mem base (firstn k (le32 KG_ERROR_OK ++ le32 uid
                            ++ (le_size (Z.of_nat (List.length a)) ++ a)
                            ++ le_size n ++ rest)) ->
  8 + 2 * sizeof_size_t + Z.of_nat (List.length a) <= Z.of_nat k ->
  base + 8 + 2 * sizeof_size_t + Z.of_nat (List.length a) <= size_modulus ->
  0 <= n < size_modulus ->
  peek_size mem (base + 8 + sizeof_size_t + Z.of_nat (List.length a)) = n.
Proof.
  intros Hh Hk Htop Hn. dm_facts.
  pose proof (le_size_length n) as Ln.
  pose proof (le_size_length (Z.of_nat (List.length a))) as La.
  apply peek_size_le_size; try lia.
  replace (base + 8 + sizeof_size_t + Z.of_nat (List.length a))
    with (base + Z.of_nat (List.length (le32 KG_ERROR_OK ++ le32 uid
                                         ++ le_size (Z.of_nat (List.length a)) ++ a)))
    by (rewrite !length_app, !le32_length; lia).
  apply (holds_prefix_at mem base k _ _ rest).
  - rewrite <- !app_assoc in Hh. rewrite <- !app_assoc. exact Hh.
  - rewrite !length_app, !le32_length. lia.
Qed.

End Truncation.

Lemma single_field_truncation {dm : DataModel} {F : Type} `{MessageVariant F}
  (mk : SizedBuffer -> F) (base : ptr) (uid : uint32) (a : list byte)
  (m : KeyguardMessage F) :
  single_field_hook mk ->
  Serialize m = le32 KG_ERROR_OK ++ le32 uid ++ le_size (Z.of_nat (List.length a)) ++ a ->
  0 <= base -> 0 <= uid < 2 ^ 32 ->
  base + 8 + 2 * sizeof_size_t + Z.of_nat (List.length a) < size_modulus ->
  rejects_truncations base m.
Proof.
  intros Hhook Hwire Hb Hu Hfit mem k m0 l Hk Hk57 Hh. dm_facts.
  rewrite Hwire in Hk, Hh.
  pose proof (le_size_length (Z.of_nat (List.length a))) as La.
  rewrite !length_app, !le32_length in Hk.
  destruct (Deserialize_cases (dm := dm) mem base (base + Z.of_nat k) m0 l
              ltac:(lia) ltac:(lia))
    as [[? Hr] | [[? [Hne Hr]] | [[? [? Hr]] | [? [? Hr]]]]];
    rewrite Hr; cbn [result fst]; try reflexivity.
  { exfalso. apply Hne. apply (truncated_code mem base k Hb _ Hh); lia. }
  destruct (Hhook mem (base + 8) (base + Z.of_nat k) (fields m0)
              (mkLog (reads l ++ addrs base 4 ++ addrs (base + 4) 4) (released l)))
    as [t [l0 [_ [_ Hrun]]]].
  rewrite Hrun.
  destruct (read_from_buffer_cases (dm := dm) mem (base + 8) (base + Z.of_nat k) t l0
              ltac:(lia) ltac:(lia) ltac:(lia))
    as [[? Hrb] | [[? [? Hrb]] | [Hgt [? [Hend Hrb]]]]];
    rewrite Hrb; cbn [result fst]; try reflexivity.
  exfalso.
  rewrite (truncated_first_length mem base uid k Hb (Z.of_nat (List.length a)) a Hh)
    in Hend by lia.
  lia.
Qed.

Lemma VerifyRequest_truncation {dm : DataModel} (base : ptr) (uid : uint32)
  (a b : list byte) :
  0 <= base -> 0 <= uid < 2 ^ 32 ->
  base + 8 + 3 * sizeof_size_t + Z.of_nat (List.length a) + Z.of_nat (List.length b)
    < size_modulus ->
  rejects_truncations base
    (mkMessage KG_ERROR_OK uid
       (VerifyRequest.mk (mkSizedBuffer (Some a) (Z.of_nat (List.length a)))
                         (mkSizedBuffer (Some b) (Z.of_nat (List.length b))))).
Proof.
  intros Hb Hu Hfit. dm_facts.
  pose proof (le_size_length (Z.of_nat (List.length a))) as La.
  pose proof (le_size_length (Z.of_nat (List.length b))) as Lb.
  intros mem k m0 l Hk Hk57 Hh. rewrite VerifyRequest_wire in Hk, Hh.
  rewrite !length_app, !le32_length in Hk.
  destruct (Deserialize_cases (dm := dm) mem base (base + Z.of_nat k) m0 l
              ltac:(lia) ltac:(lia))
    as [[? Hr] | [[? [Hne Hr]] | [[? [? Hr]] | [? [? Hr]]]]];
    rewrite Hr; cbn [result fst]; try reflexivity.
  { exfalso. apply Hne. apply (truncated_code mem base k Hb _ Hh); lia. }
  cbn [nonErrorDeserialize VerifyRequest_variant].
  rewrite VerifyRequest_hook_run. cbv zeta.
  match goal with |- context [read_from_buffer ?x1 ?x2 ?x3 ?x4 ?x5] =>
    destruct (read_from_buffer_cases (dm := dm) x1 x2 x3 x4 x5
                ltac:(lia) ltac:(lia) ltac:(lia))
      as [[? Hrb] | [[? [? Hrb]] | [Hgt [Hn1 [Hend Hrb]]]]];
    rewrite Hrb; cbn [result fst snd Z.eqb KG_ERROR_OK KG_ERROR_INVALID];
    try reflexivity
  end.
  rewrite <- app_assoc in Hh.
  rewrite (truncated_first_length mem base uid k Hb (Z.of_nat (List.length a)) _ Hh)
    in Hend |- * by lia.
  match goal with |- context [read_from_buffer ?x1 ?x2 ?x3 ?x4 ?x5] =>
    destruct (read_from_buffer_cases (dm := dm) x1 x2 x3 x4 x5
                ltac:(lia) ltac:(lia) ltac:(lia))
      as [[? Hrb2] | [[? [? Hrb2]] | [Hgt2 [Hn2 [Hend2 Hrb2]]]]];
    rewrite Hrb2; cbn [result fst]; try reflexivity
  end.
  exfalso. rewrite app_assoc in Hh.
  rewrite (truncated_second_length mem base uid k Hb a (Z.of_nat (List.length b)) b)
    in Hend2; try lia.
  rewrite <- !app_assoc in Hh. rewrite <- !app_assoc. exact Hh.
Qed.

(** X11: truncation is noticed.  For a message of any of the four
    variants whose buffers own exactly [length] bytes, decoding a proper
    prefix of the bytes [Serialize] wrote, into any object, returns
    INVALID, whatever the memory holds after the prefix.  Prefixes of 5,
    6 and 7 bytes are left out: on those [Deserialize] reads the user id
    past the end of the range. *)
Theorem truncated_message_is_rejected {dm : DataModel} (base : ptr) (uid : uint32)
  (a b : list byte) :
  0 <= base -> 0 <= uid < 2 ^ 32 ->
  base + 8 + 3 * sizeof_size_t + Z.of_nat (List.length a) + Z.of_nat (List.length b)
    < size_modulus ->
  let A := mkSizedBuffer (Some a) (Z.of_nat (List.length a)) in
  let B := mkSizedBuffer (Some b) (Z.of_nat (List.length b)) in
  rejects_truncations base (mkMessage KG_ERROR_OK uid (EnrollRequest.mk A)) /\
  rejects_truncations base (mkMessage KG_ERROR_OK uid (EnrollResponse.mk A)) /\
  rejects_truncations base (mkMessage KG_ERROR_OK uid (VerifyResponse.mk A)) /\
  rejects_truncations base (mkMessage KG_ERROR_OK uid (VerifyRequest.mk A B)).
Proof.
  intros Hb Hu Hfit. dm_facts. cbv zeta.
  split; [|split; [|split]].
  - apply (single_field_truncation EnrollRequest.mk base uid a);
      try (assumption || lia);
      [apply EnrollRequest_single_field|apply EnrollRequest_wire].
  - apply (single_field_truncation EnrollResponse.mk base uid a);
      try (assumption || lia);
      [apply EnrollResponse_single_field|apply EnrollResponse_wire].
  - apply (single_field_truncation VerifyResponse.mk base uid a);
      try (assumption || lia);
      [apply VerifyResponse_single_field|apply VerifyResponse_wire].
  - now apply VerifyRequest_truncation.
Qed.

(** ** The round trip with a 64-bit size_t *)

Lemma holds_firstn (mem : Memory) (base : ptr) (k : nat) (s : list byte) :
  holds mem base s -> holds mem base (firstn k s).
Proof.
  intros Hh i Hi. rewrite length_firstn in Hi.
  rewrite Hh by lia. rewrite nth_firstn.
  destruct (Nat.ltb_spec i k); [reflexivity|lia].
Qed.

Lemma round_trip_over_short_range {dm : DataModel} {F : Type} `{MessageVariant F}
  (base : ptr) (uid0 : uint32) (m : KeyguardMessage F) :
  0 <= base -> base + GetSerializedSize m < size_modulus ->
  8 <= GetSerializedSize m < Z.of_nat (List.length (Serialize m)) ->
  rejects_truncations base m ->
  fst (round_trip base uid0 m) = KG_ERROR_INVALID.
Proof.
  intros Hb Htop Hsize Hrej. unfold round_trip.
  rewrite ptr_add_small by lia.
  replace (GetSerializedSize m) with (Z.of_nat (Z.to_nat (GetSerializedSize m))) at 1
    by lia.
  apply Hrej.
  - lia.
  - right. lia.
  - apply holds_firstn, place_holds.
Qed.

Section SerializedSizes.
Context {dm : DataModel}.
Variables (uid : uint32) (a b : list byte).
Let A := mkSizedBuffer (Some a) (Z.of_nat (List.length a)).
Let B := mkSizedBuffer (Some b) (Z.of_nat (List.length b)).
Hypothesis Hfit : 16 + Z.of_nat (List.length a) + Z.of_nat (List.length b) < size_modulus.

Lemma EnrollRequest_size :
  GetSerializedSize (mkMessage KG_ERROR_OK uid (EnrollRequest.mk A))
  = 12 + Z.of_nat (List.length a).
Proof.
  unfold GetSerializedSize.
  cbn [error_ fields Z.eqb KG_ERROR_OK nonErrorSerializedSize EnrollRequest_variant].
  unfold EnrollRequest.nonErrorSerializedSize, serialized_buffer_size.
  cbn [EnrollRequest.provided_password_ A length].
  apply GetSerializedSize_one_field; lia.
Qed.

Lemma EnrollResponse_size :
  GetSerializedSize (mkMessage KG_ERROR_OK uid (EnrollResponse.mk A))
  = 12 + Z.of_nat (List.length a).
Proof.
  unfold GetSerializedSize.
  cbn [error_ fields Z.eqb KG_ERROR_OK nonErrorSerializedSize EnrollResponse_variant].
  unfold EnrollResponse.nonErrorSerializedSize, serialized_buffer_size.
  cbn [EnrollResponse.enrolled_password_handle_ A length].
  apply GetSerializedSize_one_field; lia.
Qed.

Lemma VerifyResponse_size :
  GetSerializedSize (mkMessage KG_ERROR_OK uid (VerifyResponse.mk A))
  = 12 + Z.of_nat (List.length a).
Proof.
  unfold GetSerializedSize.
  cbn [error_ fields Z.eqb KG_ERROR_OK nonErrorSerializedSize VerifyResponse_variant].
  unfold VerifyResponse.nonErrorSerializedSize, serialized_buffer_size.
  cbn [VerifyResponse.verification_token_ A length].
  apply GetSerializedSize_one_field; lia.
Qed.

Lemma VerifyRequest_size :
  GetSerializedSize (mkMessage KG_ERROR_OK uid (VerifyRequest.mk A B))
  = 16 + Z.of_nat (List.length a) + Z.of_nat (List.length b).
Proof.
  unfold GetSerializedSize.
  cbn [error_ fields Z.eqb KG_ERROR_OK nonErrorSerializedSize VerifyRequest_variant].
  unfold VerifyRequest.nonErrorSerializedSize, serialized_buffer_size.
  cbn [VerifyRequest.password_handle_ VerifyRequest.provided_password_ A B length].
  apply GetSerializedSize_two_fields; lia.
Qed.

End SerializedSizes.

(** X20: with a 64-bit [size_t] the round trip as the callers perform
    it, over a range of [GetSerializedSize] bytes, fails for every
    message with error OK: [Serialize] wrote 4 bytes more than that size
    for each buffer field, the range ends before the message does, and
    [Deserialize] returns INVALID.  This holds for each of the four
    variants and for buffers of every size that own exactly [length]
    bytes. *)
Theorem round_trip_fails_with_64_bit_size_t {dm : DataModel} (base : ptr)
  (uid uid0 : uint32) (a b : list byte) :
  sizeof_size_t = 8 ->
  0 <= base -> 0 <= uid < 2 ^ 32 ->
  base + 32 + Z.of_nat (List.length a) + Z.of_nat (List.length b) < size_modulus ->
  let src_a := mkSizedBuffer (Some a) (Z.of_nat (List.length a)) in
  let src_b := mkSizedBuffer (Some b) (Z.of_nat (List.length b)) in
  fst (round_trip base uid0 (fst (EnrollRequest.ctor uid src_a))) = KG_ERROR_INVALID /\
  fst (round_trip base uid0 (fst (EnrollResponse.ctor uid src_a))) = KG_ERROR_INVALID /\
  fst (round_trip base uid0 (fst (VerifyResponse.ctor uid src_a))) = KG_ERROR_INVALID /\
  fst (round_trip base uid0 (fst (fst (VerifyRequest.ctor uid src_a src_b))))
    = KG_ERROR_INVALID.
Proof.
  intros Hw Hb Hu Hfit. dm_facts. cbv zeta.
  pose proof (le_size_length (Z.of_nat (List.length a))) as La.
  pose proof (le_size_length (Z.of_nat (List.length b))) as Lb.
  cbn [EnrollRequest.ctor EnrollResponse.ctor VerifyResponse.ctor VerifyRequest.ctor
       move_from fst snd buffer length].
  assert (Hfit16 : 16 + Z.of_nat (List.length a) + Z.of_nat (List.length b)
                   < size_modulus) by lia.
  split; [|split; [|split]]; apply round_trip_over_short_range; try assumption;
    rewrite ?(EnrollRequest_size uid a b Hfit16), ?(EnrollResponse_size uid a b Hfit16),
      ?(VerifyResponse_size uid a b Hfit16), ?(VerifyRequest_size uid a b Hfit16),
      ?EnrollRequest_wire, ?EnrollResponse_wire, ?VerifyResponse_wire,
      ?VerifyRequest_wire, ?length_app, ?le32_length;
    try lia.
  - apply (single_field_truncation EnrollRequest.mk base uid a);
      try (assumption || lia);
      [apply EnrollRequest_single_field|apply EnrollRequest_wire].
  - apply (single_field_truncation EnrollResponse.mk base uid a);
      try (assumption || lia);
      [apply EnrollResponse_single_field|apply EnrollResponse_wire].
  - apply (single_field_truncation VerifyResponse.mk base uid a);
      try (assumption || lia);
      [apply VerifyResponse_single_field|apply VerifyResponse_wire].
  - apply VerifyRequest_truncation; (assumption || lia).
Qed.

(** ** The statements above on examples, with a 32-bit and with a 64-bit
    [size_t] *)

Section DecodeExamples32.
Local Existing Instance ILP32.

Lemma Deserialize_reads_inside_range_witness :
  let mem := place 4096 (le32 0 ++ le32 7 ++ le32 9 ++ [Byte.x61]) in
  let a := mkSizedBuffer (Some [Byte.x70]) 1 in
  reads_within 4096 4109 empty_log
    (log_of (Deserialize mem 4096 4109 (mkMessage 0 1 (EnrollRequest.mk a)) empty_log)) /\
  reads_within 4096 4109 empty_log
    (log_of (Deserialize mem 4096 4109 (mkMessage 0 1 (EnrollResponse.mk a)) empty_log)) /\
  reads_within 4096 4109 empty_log
    (log_of (Deserialize mem 4096 4109 (mkMessage 0 1 (VerifyResponse.mk a)) empty_log)) /\
  reads_within 4096 4109 empty_log
    (log_of (Deserialize mem 4096 4109 (mkMessage 0 1 (VerifyRequest.mk a a)) empty_log)).
Proof.
  intros mem a.
  apply (Deserialize_reads_inside_range mem 4096 4109 empty_log 0 1 a a).
  - lia.
  - reflexivity.
  - intros [_ Hgap]. lia.
Defined.

End DecodeExamples32.

Section DecodeExamples64.
Local Existing Instance LP64.

Lemma decode_of_serialized_message_witness :
  let A := mkSizedBuffer (Some [Byte.x70; Byte.x77]) 2 in
  let B := mkSizedBuffer (Some [Byte.x68]) 1 in
  let m1 := mkMessage KG_ERROR_OK 3857 (EnrollRequest.mk A) in
  let m2 := mkMessage KG_ERROR_OK 3857 (VerifyRequest.mk A B) in
  List.length (Serialize m1) = 18%nat /\ List.length (Serialize m2) = 27%nat /\
  result (Deserialize (place 4096 (Serialize m1 ++ [Byte.x2a])) 4096 (4096 + 19)
            (default_message 0) empty_log) = (KG_ERROR_OK, m1) /\
  result (Deserialize (place 4096 (Serialize m2 ++ [Byte.x2a])) 4096 (4096 + 28)
            (default_message 0) empty_log) = (KG_ERROR_OK, m2).
Proof.
  intros A B m1 m2.
  destruct (decode_of_serialized_message 4096 3857 [Byte.x70; Byte.x77] [Byte.x68]
              [Byte.x2a]) as [H1 [_ [_ H4]]].
  - lia.
  - lia.
  - simpl. lia.
  - simpl. lia.
  - reflexivity.
  - split; [reflexivity|]. split; [reflexivity|]. split.
    + apply (H1 (place 4096 (Serialize m1 ++ [Byte.x2a])) 0 empty_log). apply place_holds.
    + apply (H4 (place 4096 (Serialize m2 ++ [Byte.x2a])) 0 empty_log). apply place_holds.
Defined.


Lemma single_field_decode_matches_input_witness :
  let mem := place 4096 (le32 0 ++ le32 3857 ++ le_size 2
                         ++ [Byte.x70; Byte.x77; Byte.x2a]) in
  let r := result (Deserialize mem 4096 4115 (default_message (F := EnrollRequest.t) 0)
                     empty_log) in
  (peek32 mem 4096 = KG_ERROR_OK /\ 1 <= peek_size mem (4096 + 8) /\
   4096 + 8 + 8 + peek_size mem (4096 + 8) <= 4115) /\
  snd r = mkMessage KG_ERROR_OK (peek32 mem (4096 + 4))
            (EnrollRequest.mk
               (mkSizedBuffer (Some (bytes_at mem (4096 + 8 + 8) (peek_size mem (4096 + 8))))
                  (peek_size mem (4096 + 8)))).
Proof.
  intros mem.
  destruct (single_field_decode_matches_input mem 4096 4115 empty_log
              (default_message 0) (default_message 0) (default_message 0)) as [H1 _].
  - lia.
  - reflexivity.
  - apply H1. reflexivity.
Defined.

Lemma VerifyRequest_decode_matches_input_witness :
  let mem := place 4096 (le32 0 ++ le32 3857 ++ le_size 1 ++ [Byte.x68]
                         ++ le_size 2 ++ [Byte.x70; Byte.x77]) in
  let r := result (Deserialize mem 4096 4123 (default_message (F := VerifyRequest.t) 0)
                     empty_log) in
  let n1 := peek_size mem (4096 + 8) in
  let n2 := peek_size mem (4096 + 8 + 8 + n1) in
  peek32 mem 4096 = KG_ERROR_OK /\
  1 <= n1 /\ 1 <= n2 /\ 4096 + 8 + 2 * 8 + n1 + n2 <= 4123 /\
  snd r = mkMessage KG_ERROR_OK (peek32 mem (4096 + 4))
            (VerifyRequest.mk
               (mkSizedBuffer (Some (bytes_at mem (4096 + 8 + 8) n1)) n1)
               (mkSizedBuffer (Some (bytes_at mem (4096 + 8 + 2 * 8 + n1) n2)) n2)).
Proof.
  intros mem.
  refine (VerifyRequest_decode_matches_input mem 4096 4123 empty_log (default_message 0)
            _ _ _).
  - lia.
  - reflexivity.
  - reflexivity.
Defined.


Lemma truncated_message_is_rejected_witness :
  let A := mkSizedBuffer (Some [Byte.x70; Byte.x77]) 2 in
  let m := mkMessage KG_ERROR_OK 3857 (EnrollRequest.mk A) in
  List.length (Serialize m) = 18%nat /\
  fst (result (Deserialize (place 4096 (firstn 17 (Serialize m))) 4096 (4096 + Z.of_nat 17)
                 (default_message (F := EnrollRequest.t) 0) empty_log)) = KG_ERROR_INVALID.
Proof.
  intros A m.
  destruct (truncated_message_is_rejected 4096 3857 [Byte.x70; Byte.x77] [Byte.x68])
    as [H1 _].
  - lia.
  - lia.
  - reflexivity.
  - split; [reflexivity|].
    apply (H1 (place 4096 (firstn 17 (Serialize m))) 17%nat (default_message 0) empty_log).
    + simpl. lia.
    + right. lia.
    + apply place_holds.
Defined.

Lemma round_trip_fails_with_64_bit_size_t_witness :
  let src_a := mkSizedBuffer (Some [Byte.x70; Byte.x77]) 2 in
  let src_b := mkSizedBuffer (Some [Byte.x68]) 1 in
  fst (round_trip 4096 0 (fst (EnrollRequest.ctor 3857 src_a))) = KG_ERROR_INVALID /\
  fst (round_trip 4096 0 (fst (EnrollResponse.ctor 3857 src_a))) = KG_ERROR_INVALID /\
  fst (round_trip 4096 0 (fst (VerifyResponse.ctor 3857 src_a))) = KG_ERROR_INVALID /\
  fst (round_trip 4096 0 (fst (fst (VerifyRequest.ctor 3857 src_a src_b))))
    = KG_ERROR_INVALID.
Proof.
  intros src_a src_b.
  apply (round_trip_fails_with_64_bit_size_t 4096 3857 0 [Byte.x70; Byte.x77] [Byte.x68]).
  - reflexivity.
  - lia.
  - lia.
  - reflexivity.
Defined.

End DecodeExamples64.

(** ** The result depends on the input only *)

Lemma single_field_hook_indep {dm : DataModel} {F : Type} `{MessageVariant F}
  (mk : SizedBuffer -> F) :
  single_field_hook mk ->
  forall mem p e (f f' : F) l l',
    let h := result (nonErrorDeserialize mem p e f l) in
    let h' := result (nonErrorDeserialize mem p e f' l') in
    fst h = fst h' /\ (fst h = KG_ERROR_OK -> snd h = snd h').
Proof.
  intros Hhook mem p e f f' l l'. cbv zeta.
  destruct (Hhook mem p e f l) as [t1 [l1 [_ [_ Hrun1]]]].
  destruct (Hhook mem p e f' l') as [t2 [l2 [_ [_ Hrun2]]]].
  rewrite Hrun1, Hrun2.
  pose proof (read_from_buffer_indep mem p e t1 t2 l1 l2) as Hi.
  destruct (read_from_buffer mem p e t1 l1) as [[[? ?] ?] ?].
  destruct (read_from_buffer mem p e t2 l2) as [[[? ?] ?] ?].
  cbn in Hi |- *. destruct Hi as [Hi1 Hi2]. inversion Hi1; subst.
  split; [reflexivity|]. intros Hres. now rewrite (Hi2 Hres).
Qed.

Lemma VerifyRequest_hook_indep {dm : DataModel} :
  forall mem p e (f f' : VerifyRequest.t) l l',
    let h := result (VerifyRequest.nonErrorDeserialize mem p e f l) in
    let h' := result (VerifyRequest.nonErrorDeserialize mem p e f' l') in
    fst h = fst h' /\ (fst h = KG_ERROR_OK -> snd h = snd h').
Proof.
  intros mem p e f f' l l'. cbv zeta. rewrite !VerifyRequest_hook_run. cbv zeta.
  match goal with
  | |- context [read_from_buffer mem p e ?t1 ?l1] =>
    match goal with
    | |- context [read_from_buffer mem p e ?t2 ?l2] =>
      lazymatch t1 with
      | t2 => fail
      | _ =>
        pose proof (read_from_buffer_indep mem p e t1 t2 l1 l2) as Hi;
        destruct (read_from_buffer mem p e t1 l1) as [[[e1 c1] h1] k1];
        destruct (read_from_buffer mem p e t2 l2) as [[[e2 c2] h2] k2]
      end
    end
  end.
  cbn in Hi. destruct Hi as [Hi1 Hi2]. inversion Hi1; subst. cbn [fst snd].
  destruct (Z.eq_dec e2 KG_ERROR_OK) as [He|He].
  - subst e2. rewrite (Hi2 eq_refl). cbn [Z.eqb KG_ERROR_OK].
    match goal with
    | |- context [read_from_buffer mem c2 e ?t1 k1] =>
      match goal with
      | |- context [read_from_buffer mem c2 e ?t2 k2] =>
        pose proof (read_from_buffer_indep mem c2 e t1 t2 k1 k2) as Hj;
        destruct (read_from_buffer mem c2 e t1 k1) as [[[e3 c3] h3] k3];
        destruct (read_from_buffer mem c2 e t2 k2) as [[[e4 c4] h4] k4]
      end
    end.
    cbn in Hj |- *. destruct Hj as [Hj1 Hj2]. inversion Hj1; subst.
    split; [reflexivity|]. intros Hres. now rewrite (Hj2 Hres).
  - apply Z.eqb_neq in He. rewrite He. cbn. split; [reflexivity|].
    intros Hres. apply Z.eqb_neq in He. contradiction.
Qed.

(** X12: what [Deserialize] returns depends on the input, not on the
    object it decodes into: for each of the four variants and every
    input, decoding the same range into two objects with any previous
    content returns the same error, and when that is OK the two objects
    end up equal, so a reused object decodes like a fresh one. *)
Theorem Deserialize_depends_on_input_only {dm : DataModel} :
  depends_on_input_only EnrollRequest.t /\
  depends_on_input_only EnrollResponse.t /\
  depends_on_input_only VerifyResponse.t /\
  depends_on_input_only VerifyRequest.t.
Proof.
  split; [|split; [|split]]; apply depends_on_input_only_of_hook.
  - exact (single_field_hook_indep _ EnrollRequest_single_field).
  - exact (single_field_hook_indep _ EnrollResponse_single_field).
  - exact (single_field_hook_indep _ VerifyResponse_single_field).
  - exact VerifyRequest_hook_indep.
Qed.

(** ** Invariants of the object *)

(** X13: [Deserialize] keeps every buffer field well formed, on every
    input: if, before the call, each field whose pointer is not null
    points to exactly [length] bytes, the same holds after the call,
    whether it returns OK or not. *)
Theorem Deserialize_keeps_buffers_well_formed {dm : DataModel} (mem : Memory)
  (payload end_ : ptr) (l : Log)
  (e : keyguard_error_t) (uid : uint32) (a b : SizedBuffer) :
  buffer_ok a -> buffer_ok b ->
  (let m' := snd (result (Deserialize mem payload end_
                            (mkMessage e uid (EnrollRequest.mk a)) l)) in
   buffer_ok (EnrollRequest.provided_password_ (fields m'))) /\
  (let m' := snd (result (Deserialize mem payload end_
                            (mkMessage e uid (EnrollResponse.mk a)) l)) in
   buffer_ok (EnrollResponse.enrolled_password_handle_ (fields m'))) /\
  (let m' := snd (result (Deserialize mem payload end_
                            (mkMessage e uid (VerifyResponse.mk a)) l)) in
   buffer_ok (VerifyResponse.verification_token_ (fields m'))) /\
  (let m' := snd (result (Deserialize mem payload end_
                            (mkMessage e uid (VerifyRequest.mk a b)) l)) in
   buffer_ok (VerifyRequest.password_handle_ (fields m')) /\
   buffer_ok (VerifyRequest.provided_password_ (fields m'))).
Proof.
  intros Ha Hb. cbv zeta.
  split; [|split; [|split]];
    match goal with |- context [Deserialize ?x1 ?x2 ?x3 ?x4 ?x5] =>
      destruct (Deserialize_fields_cases x1 x2 x3 x4 x5) as [Hsame | [p [l0 Hrun]]];
      [rewrite Hsame; cbn; auto | rewrite Hrun; cbn [snd fields]]
    end.
  - cbn [nonErrorDeserialize EnrollRequest_variant]. rewrite EnrollRequest_hook_run.
    destruct (read_from_buffer_buffer_ok mem p end_
                (mkSizedBuffer None (length a))
                (mkLog (reads l0) (released l0 ++ owned_blocks (wiped_block a))) eq_refl)
      as [Hok _].
    cbn [fields EnrollRequest.provided_password_].
    destruct (read_from_buffer _ _ _ _ _) as [[[e1 c1] t1] l1]. exact Hok.
  - cbn [nonErrorDeserialize EnrollResponse_variant]. rewrite EnrollResponse_hook_run.
    destruct (read_from_buffer_buffer_ok mem p end_
                (mkSizedBuffer None (length a))
                (mkLog (reads l0) (released l0 ++ owned_blocks (buffer a))) eq_refl)
      as [Hok _].
    cbn [fields EnrollResponse.enrolled_password_handle_].
    destruct (read_from_buffer _ _ _ _ _) as [[[e1 c1] t1] l1]. exact Hok.
  - cbn [nonErrorDeserialize VerifyResponse_variant]. rewrite VerifyResponse_hook_run.
    destruct (read_from_buffer_buffer_ok mem p end_
                (mkSizedBuffer None (length a))
                (mkLog (reads l0) (released l0 ++ owned_blocks (buffer a))) eq_refl)
      as [Hok _].
    cbn [fields VerifyResponse.verification_token_].
    destruct (read_from_buffer _ _ _ _ _) as [[[e1 c1] t1] l1]. exact Hok.
  - cbn [nonErrorDeserialize VerifyRequest_variant]. rewrite VerifyRequest_hook_run.
    cbv zeta. cbn [fields VerifyRequest.password_handle_ VerifyRequest.provided_password_].
    match goal with |- context [read_from_buffer ?x1 ?x2 ?x3 ?x4 ?x5] =>
      destruct (read_from_buffer_buffer_ok x1 x2 x3 x4 x5 eq_refl) as [Hok1 _];
      destruct (read_from_buffer x1 x2 x3 x4 x5) as [[[e1 c1] t1] l1]
    end.
    cbn [fst snd] in Hok1 |- *.
    destruct (e1 =? KG_ERROR_OK).
    + match goal with |- context [read_from_buffer ?x1 ?x2 ?x3 ?x4 ?x5] =>
        destruct (read_from_buffer_buffer_ok x1 x2 x3 x4 x5 eq_refl) as [Hok2 _];
        destruct (read_from_buffer x1 x2 x3 x4 x5) as [[[e2 c2] t2] l2]
      end.
      cbn. split; assumption.
    + cbn. split; [assumption|exact I].
Qed.

(** X14: a failed decode never leaves a password behind.  On every input
    and for every previous content of the object, when [Deserialize] of
    an [EnrollRequest] or a [VerifyRequest] does not return OK, either
    the buffer fields are as they were before the call, or the
    [provided_password] field owns no storage. *)
Theorem failed_decode_leaves_no_password {dm : DataModel} (mem : Memory)
  (payload end_ : ptr) (l : Log)
  (m1 : KeyguardMessage EnrollRequest.t) (m2 : KeyguardMessage VerifyRequest.t) :
  (let r := result (Deserialize mem payload end_ m1 l) in
   fst r <> KG_ERROR_OK ->
   fields (snd r) = fields m1 \/
   buffer (EnrollRequest.provided_password_ (fields (snd r))) = None) /\
  (let r := result (Deserialize mem payload end_ m2 l) in
   fst r <> KG_ERROR_OK ->
   fields (snd r) = fields m2 \/
   buffer (VerifyRequest.provided_password_ (fields (snd r))) = None).
Proof.
  cbv zeta. split.
  - destruct (Deserialize_fields_cases mem payload end_ m1 l) as [Hsame | [p [l0 Hrun]]];
      [now left|]. rewrite Hrun. cbn [fst snd fields]. intros Hne. right. revert Hne.
    cbn [nonErrorDeserialize EnrollRequest_variant]. rewrite EnrollRequest_hook_run.
    match goal with |- context [read_from_buffer ?x1 ?x2 ?x3 ?x4 ?x5] =>
      destruct (read_from_buffer_buffer_ok x1 x2 x3 x4 x5 eq_refl) as [_ Hnone];
      destruct (read_from_buffer x1 x2 x3 x4 x5) as [[[e1 c1] t1] l1]
    end.
    cbn in Hnone |- *. exact Hnone.
  - destruct (Deserialize_fields_cases mem payload end_ m2 l) as [Hsame | [p [l0 Hrun]]];
      [now left|]. rewrite Hrun. cbn [fst snd fields]. intros Hne. right. revert Hne.
    cbn [nonErrorDeserialize VerifyRequest_variant]. rewrite VerifyRequest_hook_run.
    cbv zeta.
    match goal with |- context [read_from_buffer ?x1 ?x2 ?x3 ?x4 ?x5] =>
      destruct (read_from_buffer x1 x2 x3 x4 x5) as [[[e1 c1] t1] l1]
    end.
    cbn [fst snd]. destruct (e1 =? KG_ERROR_OK); [|reflexivity].
    match goal with |- context [read_from_buffer ?x1 ?x2 ?x3 ?x4 ?x5] =>
      destruct (read_from_buffer_buffer_ok x1 x2 x3 x4 x5 eq_refl) as [_ Hnone];
      destruct (read_from_buffer x1 x2 x3 x4 x5) as [[[e2 c2] t2] l2]
    end.
    cbn in Hnone |- *. exact Hnone.
Qed.

(** X15: an error message survives the wire.  For every variant, a
    message whose error is a non-zero 32-bit code serializes to four
    bytes from which [Deserialize], into any object, returns that code
    and stores it, reading the four bytes and leaving the user id and
    the fields of the target as they were. *)
Theorem error_message_round_trip {dm : DataModel} {F : Type} `{MessageVariant F}
  (m m0 : KeyguardMessage F) (mem : Memory) (base : ptr) (l : Log) :
  0 < error_ m < 2 ^ 32 -> 0 <= base -> base + 4 < size_modulus ->
  holds mem base (Serialize m) ->
  Deserialize mem base (base + GetSerializedSize m) m0 l =
    ((error_ m, mkMessage (error_ m) (user_id_ m0) (fields m0)),
     mkLog (reads l ++ addrs base 4) (released l)).
Proof.
  intros He Hb Htop Hh.
  assert (Hneq : (error_ m =? KG_ERROR_OK) = false).
  { apply Z.eqb_neq. unfold KG_ERROR_OK. lia. }
  unfold GetSerializedSize, Serialize in *. rewrite Hneq in *. cbn [negb] in Hh.
  assert (Hpeek : peek32 mem base = error_ m) by (apply peek32_le32; (assumption || lia)).
  rewrite Deserialize_error.
  - now rewrite Hpeek.
  - unfold sizeof_uint32. rewrite ptr_add_small by lia. lia.
  - rewrite Hpeek. unfold KG_ERROR_OK. lia.
Qed.

(** X16: ranges of at most four bytes.  With fewer than four bytes
    [Deserialize] returns INVALID and touches nothing: no byte is read
    and the object, its stored error included, is unchanged.  With
    exactly four bytes holding the OK code it returns INVALID too, but
    stores OK as the error of the object; the user id and the fields are
    unchanged and nothing is released. *)
Theorem Deserialize_of_short_range {dm : DataModel} {F : Type} `{MessageVariant F}
  (mem : Memory) (payload end_ : ptr) (m : KeyguardMessage F) (l : Log) :
  0 <= payload <= end_ -> end_ + 4 < size_modulus ->
  (end_ - payload < 4 ->
   Deserialize mem payload end_ m l = ((KG_ERROR_INVALID, m), l)) /\
  (end_ - payload = 4 -> peek32 mem payload = KG_ERROR_OK ->
   Deserialize mem payload end_ m l =
     ((KG_ERROR_INVALID, mkMessage KG_ERROR_OK (user_id_ m) (fields m)),
      mkLog (reads l ++ addrs payload 4) (released l))).
Proof.
  intros Hp Htop.
  destruct (Deserialize_cases mem payload end_ m l Hp Htop)
    as [[H1 Hr] | [[H1 [H2 Hr]] | [[H1 [H2 Hr]] | [H1 [H2 Hr]]]]];
    (split; [intros Hlt|intros Heq Hok]); try lia; try contradiction; exact Hr.
Qed.

(** ** Setters and destructors *)

(** X17: the setters of the two responses behave like the constructors
    on a field that may already own storage: afterwards the getter
    returns the buffer that was passed in, the error and the user id are
    unchanged, the source owns no storage and keeps its length, the block
    the field held before is released as it is, exactly once, and the
    message serializes like one constructed from the new buffer. *)
Theorem setters_replace_the_field {dm : DataModel} (src : SizedBuffer) (l : Log)
  (m1 : KeyguardMessage VerifyResponse.t) (m2 : KeyguardMessage EnrollResponse.t) :
  (let '((m', src'), l') := VerifyResponse.SetVerificationToken src m1 l in
   VerifyResponse.GetVerificationToken m' = src /\
   error_ m' = error_ m1 /\ user_id_ m' = user_id_ m1 /\
   buffer src' = None /\ length src' = length src /\
   released l' = released l ++ owned_blocks (buffer (VerifyResponse.GetVerificationToken m1)) /\
   reads l' = reads l /\
   (error_ m1 = KG_ERROR_OK ->
    Serialize m' = Serialize (fst (VerifyResponse.ctor (user_id_ m1) src)))) /\
  (let '((m', src'), l') := EnrollResponse.SetEnrolledPasswordHandle src m2 l in
   EnrollResponse.GetEnrolledPasswordHandle m' = src /\
   error_ m' = error_ m2 /\ user_id_ m' = user_id_ m2 /\
   buffer src' = None /\ length src' = length src /\
   released l' = released l
                 ++ owned_blocks (buffer (EnrollResponse.GetEnrolledPasswordHandle m2)) /\
   reads l' = reads l /\
   (error_ m2 = KG_ERROR_OK ->
    Serialize m' = Serialize (fst (EnrollResponse.ctor (user_id_ m2) src)))).
Proof.
  destruct src as [p n], m1 as [e1 u1 [[t1 k1]]], m2 as [e2 u2 [[t2 k2]]].
  unfold VerifyResponse.SetVerificationToken, EnrollResponse.SetEnrolledPasswordHandle,
    move_assign, bind, ret.
  cbn [fields error_ user_id_ VerifyResponse.verification_token_
       EnrollResponse.enrolled_password_handle_ buffer].
  split.
  - destruct t1 as [blk|]; cbn; (repeat split; [..|intros ->; reflexivity]);
      rewrite ?app_nil_r; reflexivity.
  - destruct t2 as [blk|]; cbn; (repeat split; [..|intros ->; reflexivity]);
      rewrite ?app_nil_r; reflexivity.
Qed.

(** X18: every destructor releases each block the object owns exactly
    once and reads no input, whatever the length members say: the
    password of a request goes after [memset_s], the other buffers as
    they are, and a null pointer releases nothing.  For [VerifyResponse]
    this holds although the destructor body tests [length > 0] instead
    of the pointer. *)
Theorem destructors_release_each_block_once (a b : SizedBuffer) (l : Log) :
  log_of (EnrollRequest.dtor (EnrollRequest.mk a) l)
    = mkLog (reads l) (released l ++ owned_blocks (wiped_block a)) /\
  log_of (VerifyRequest.dtor (VerifyRequest.mk a b) l)
    = mkLog (reads l) (released l ++ owned_blocks (buffer a)
                                  ++ owned_blocks (wiped_block b)) /\
  log_of (EnrollResponse.dtor (EnrollResponse.mk a) l)
    = mkLog (reads l) (released l ++ owned_blocks (buffer a)) /\
  log_of (VerifyResponse.dtor (VerifyResponse.mk a) l)
    = mkLog (reads l) (released l ++ owned_blocks (buffer a)).
Proof.
  destruct a as [[blka|] na], b as [[blkb|] nb], l as [rd rl];
    unfold EnrollRequest.dtor, VerifyRequest.dtor, EnrollResponse.dtor,
      VerifyResponse.dtor, bind, ret, wiped_block;
    cbn; try destruct (na >? 0); cbn; rewrite ?app_nil_r, <- ?app_assoc;
    repeat split; reflexivity.
Qed.

(** ** Exactly which ranges decode *)

(** X19: with [w = sizeof(size_t)], the width of a length prefix,
    [Deserialize] of a single-field variant returns OK exactly when the
    range starts with the OK code and the length [n1] stored in the [w]
    bytes at offset 8 is at least 1 with the [8 + w + n1] bytes of the
    message inside the range; of a [VerifyRequest], exactly when in
    addition the second length [n2], stored right after the first field,
    is at least 1 and the [8 + 2 * w + n1 + n2] bytes lie inside the
    range.  Bytes after the message do not matter. *)
Theorem Deserialize_accepts_exactly {dm : DataModel} (mem : Memory)
  (payload end_ : ptr) (l : Log)
  (m1 : KeyguardMessage EnrollRequest.t) (m2 : KeyguardMessage EnrollResponse.t)
  (m3 : KeyguardMessage VerifyResponse.t) (m4 : KeyguardMessage VerifyRequest.t) :
  0 <= payload <= end_ -> end_ + 4 + sizeof_size_t < size_modulus ->
  let n1 := peek_size mem (payload + 8) in
  let n2 := peek_size mem (payload + 8 + sizeof_size_t + n1) in
  let one_field :=
    4 <= end_ - payload /\ peek32 mem payload = KG_ERROR_OK /\
    1 <= n1 /\ payload + 8 + sizeof_size_t + n1 <= end_ in
  let two_fields :=
    4 <= end_ - payload /\ peek32 mem payload = KG_ERROR_OK /\
    1 <= n1 /\ 1 <= n2 /\ payload + 8 + 2 * sizeof_size_t + n1 + n2 <= end_ in
  (fst (result (Deserialize mem payload end_ m1 l)) = KG_ERROR_OK <-> one_field) /\
  (fst (result (Deserialize mem payload end_ m2 l)) = KG_ERROR_OK <-> one_field) /\
  (fst (result (Deserialize mem payload end_ m3 l)) = KG_ERROR_OK <-> one_field) /\
  (fst (result (Deserialize mem payload end_ m4 l)) = KG_ERROR_OK <-> two_fields).
Proof.
  intros Hp Htop. dm_facts. cbv zeta.
  pose proof (single_field_sound EnrollRequest.mk mem payload end_ l m1
                EnrollRequest_single_field Hp Htop) as S1.
  pose proof (single_field_sound EnrollResponse.mk mem payload end_ l m2
                EnrollResponse_single_field Hp Htop) as S2.
  pose proof (single_field_sound VerifyResponse.mk mem payload end_ l m3
                VerifyResponse_single_field Hp Htop) as S3.
  pose proof (VerifyRequest_sound mem payload end_ l m4 Hp Htop) as S4.
  cbv zeta in S1, S2, S3, S4.
  assert (Hback1 : forall (F : Type) (V : MessageVariant F) (mk : SizedBuffer -> F)
                          (m : KeyguardMessage F),
             single_field_hook mk ->
             4 <= end_ - payload /\ peek32 mem payload = KG_ERROR_OK /\
             1 <= peek_size mem (payload + 8) /\
             payload + 8 + sizeof_size_t + peek_size mem (payload + 8) <= end_ ->
             fst (result (Deserialize mem payload end_ m l)) = KG_ERROR_OK).
  { intros F V mk m Hhook [Hlen [Hc [Hn Hfit]]].
    destruct (Deserialize_cases (dm := dm) mem payload end_ m l Hp ltac:(lia))
      as [[? Hr] | [[? [? Hr]] | [[? [? Hr]] | [? [? Hr]]]]];
      try lia; try contradiction; rewrite Hr.
    destruct (Hhook mem (payload + 8) end_ (fields m)
                (mkLog (reads l ++ addrs payload 4 ++ addrs (payload + 4) 4) (released l)))
      as [t [l0 [_ [_ Hrun]]]].
    rewrite Hrun.
    destruct (read_from_buffer_cases (dm := dm) mem (payload + 8) end_ t l0
                ltac:(lia) ltac:(lia) ltac:(lia))
      as [[? Hrb] | [[? [? Hrb]] | [? [? [? Hrb]]]]];
      try lia; rewrite Hrb; reflexivity. }
  split; [|split; [|split]]; split.
  - intros Hres. destruct (S1 Hres) as [[? [? ?]] _]. repeat split; (assumption || lia).
  - apply (Hback1 _ _ EnrollRequest.mk). apply EnrollRequest_single_field.
  - intros Hres. destruct (S2 Hres) as [[? [? ?]] _]. repeat split; (assumption || lia).
  - apply (Hback1 _ _ EnrollResponse.mk). apply EnrollResponse_single_field.
  - intros Hres. destruct (S3 Hres) as [[? [? ?]] _]. repeat split; (assumption || lia).
  - apply (Hback1 _ _ VerifyResponse.mk). apply VerifyResponse_single_field.
  - intros Hres. destruct (S4 Hres) as [? [? [? [? _]]]]. repeat split; (assumption || lia).
  - intros [Hlen [Hc [Hn [Hn2 Hfit]]]].
    destruct (Deserialize_cases (dm := dm) mem payload end_ m4 l Hp ltac:(lia))
      as [[? Hr] | [[? [? Hr]] | [[? [? Hr]] | [? [? Hr]]]]];
      try lia; try contradiction; rewrite Hr.
    cbn [nonErrorDeserialize VerifyRequest_variant].
    rewrite VerifyRequest_hook_run. cbv zeta.
    match goal with |- context [read_from_buffer ?x1 ?x2 ?x3 ?x4 ?x5] =>
      destruct (read_from_buffer_cases (dm := dm) x1 x2 x3 x4 x5
                  ltac:(lia) ltac:(lia) ltac:(lia))
        as [[? Hrb] | [[? [? Hrb]] | [? [? [? Hrb]]]]];
        try lia; rewrite Hrb; cbn [result fst snd Z.eqb KG_ERROR_OK]
    end.
    match goal with |- context [read_from_buffer ?x1 ?x2 ?x3 ?x4 ?x5] =>
      destruct (read_from_buffer_cases (dm := dm) x1 x2 x3 x4 x5
                  ltac:(lia) ltac:(lia) ltac:(lia))
        as [[? Hrb2] | [[? [? Hrb2]] | [? [? [? Hrb2]]]]];
        try lia; rewrite Hrb2; reflexivity
    end.
Qed.

(** ** The statements above on examples, with a 32-bit and with a 64-bit
    [size_t] *)

Section ObjectExamples32.
Local Existing Instance ILP32.

Lemma Deserialize_depends_on_input_only_witness :
  let mem := place 4096 (le32 0 ++ le32 7 ++ le32 1 ++ [Byte.x61]) in
  let m := mkMessage KG_ERROR_INVALID 1
             (EnrollRequest.mk (mkSizedBuffer (Some [Byte.x70; Byte.x77]) 2)) in
  snd (result (Deserialize mem 4096 4109 m empty_log))
  = snd (result (Deserialize mem 4096 4109 (default_message 0) empty_log)).
Proof.
  intros mem m.
  destruct Deserialize_depends_on_input_only as [H1 _].
  apply (H1 mem 4096 4109 m (default_message 0) empty_log empty_log). reflexivity.
Defined.

Lemma Deserialize_keeps_buffers_well_formed_witness :
  let mem := place 4096 (le32 0 ++ le32 7 ++ le32 9 ++ [Byte.x61]) in
  let a := mkSizedBuffer (Some [Byte.x70; Byte.x77]) 2 in
  let b := mkSizedBuffer None 5 in
  (let m' := snd (result (Deserialize mem 4096 4109
                            (mkMessage 0 1 (EnrollRequest.mk a)) empty_log)) in
   buffer_ok (EnrollRequest.provided_password_ (fields m'))) /\
  (let m' := snd (result (Deserialize mem 4096 4109
                            (mkMessage 0 1 (EnrollResponse.mk a)) empty_log)) in
   buffer_ok (EnrollResponse.enrolled_password_handle_ (fields m'))) /\
  (let m' := snd (result (Deserialize mem 4096 4109
                            (mkMessage 0 1 (VerifyResponse.mk a)) empty_log)) in
   buffer_ok (VerifyResponse.verification_token_ (fields m'))) /\
  (let m' := snd (result (Deserialize mem 4096 4109
                            (mkMessage 0 1 (VerifyRequest.mk a b)) empty_log)) in
   buffer_ok (VerifyRequest.password_handle_ (fields m')) /\
   buffer_ok (VerifyRequest.provided_password_ (fields m'))).
Proof.
  intros mem a b.
  apply (Deserialize_keeps_buffers_well_formed mem 4096 4109 empty_log 0 1 a b).
  - reflexivity.
  - exact I.
Defined.

Lemma failed_decode_leaves_no_password_witness :
  let mem := place 4096 (le32 0 ++ le32 7 ++ le32 9 ++ [Byte.x61]) in
  let m1 := mkMessage KG_ERROR_OK 1
              (EnrollRequest.mk (mkSizedBuffer (Some [Byte.x70; Byte.x77]) 2)) in
  let r := result (Deserialize mem 4096 4109 m1 empty_log) in
  fields (snd r) = fields m1 \/
  buffer (EnrollRequest.provided_password_ (fields (snd r))) = None.
Proof.
  intros mem m1.
  destruct (failed_decode_leaves_no_password mem 4096 4109 empty_log m1
              (default_message 0)) as [H1 _].
  apply H1. vm_compute. discriminate.
Defined.

Lemma error_message_round_trip_witness :
  let m := mkMessage KG_ERROR_INVALID 3857
             (VerifyResponse.mk (mkSizedBuffer (Some [Byte.x74]) 1)) in
  let m0 := default_message (F := VerifyResponse.t) 9 in
  Deserialize (place 4096 (Serialize m)) 4096 (4096 + GetSerializedSize m) m0 empty_log =
    ((error_ m, mkMessage (error_ m) (user_id_ m0) (fields m0)),
     mkLog (reads empty_log ++ addrs 4096 4) (released empty_log)).
Proof.
  intros m m0.
  apply (error_message_round_trip m m0 (place 4096 (Serialize m)) 4096 empty_log).
  - unfold m, KG_ERROR_INVALID. simpl. lia.
  - lia.
  - reflexivity.
  - apply place_holds.
Defined.

Lemma Deserialize_of_short_range_witness :
  let m := mkMessage KG_ERROR_INVALID 3857
             (EnrollRequest.mk (mkSizedBuffer (Some [Byte.x70]) 1)) in
  let mem := place 4096 (le32 KG_ERROR_OK) in
  Deserialize mem 4096 4099 m empty_log = ((KG_ERROR_INVALID, m), empty_log) /\
  Deserialize mem 4096 4100 m empty_log =
     ((KG_ERROR_INVALID, mkMessage KG_ERROR_OK (user_id_ m) (fields m)),
      mkLog (reads empty_log ++ addrs 4096 4) (released empty_log)).
Proof.
  intros m mem. split.
  - apply (Deserialize_of_short_range mem 4096 4099 m empty_log);
      [lia|reflexivity|lia].
  - apply (Deserialize_of_short_range mem 4096 4100 m empty_log);
      [lia|reflexivity|lia|reflexivity].
Defined.

Lemma setters_replace_the_field_witness :
  let src := mkSizedBuffer (Some [Byte.x74; Byte.x6b]) 2 in
  let m1 := mkMessage KG_ERROR_OK 3857
              (VerifyResponse.mk (mkSizedBuffer (Some [Byte.x6f]) 1)) in
  let m' := fst (fst (VerifyResponse.SetVerificationToken src m1 empty_log)) in
  Serialize m' = Serialize (fst (VerifyResponse.ctor 3857 src)).
Proof.
  intros src m1.
  pose proof (setters_replace_the_field src empty_log m1 (default_message 0)) as [H1 _].
  destruct (VerifyResponse.SetVerificationToken src m1 empty_log) as [[m' src'] l'].
  destruct H1 as [_ [_ [_ [_ [_ [_ [_ Hser]]]]]]].
  apply Hser. reflexivity.
Defined.

End ObjectExamples32.

Section AcceptExamples64.
Local Existing Instance LP64.

Lemma Deserialize_accepts_exactly_witness :
  let mem := place 4096 (le32 0 ++ le32 3857 ++ le_size 2
                         ++ [Byte.x70; Byte.x77; Byte.x2a]) in
  fst (result (Deserialize mem 4096 4115 (default_message (F := EnrollRequest.t) 0)
                 empty_log)) = KG_ERROR_OK <->
  4 <= 4115 - 4096 /\ peek32 mem 4096 = KG_ERROR_OK /\
  1 <= peek_size mem (4096 + 8) /\ 4096 + 8 + 8 + peek_size mem (4096 + 8) <= 4115.
Proof.
  intros mem.
  destruct (Deserialize_accepts_exactly mem 4096 4115 empty_log
              (default_message 0) (default_message 0) (default_message 0)
              (default_message 0)) as [H1 _].
  - lia.
  - reflexivity.
  - exact H1.
Defined.

End AcceptExamples64.
